(** * Cover Magic: the preview/export renderer of [DefaultTheme.vue]

    A shallow embedding of the script of
    [src/components/DefaultTheme.vue]: the spring animator, the
    animation-state table, the frame renderer, the exporter and the
    export file name.

    Numbers.  A JavaScript [number] is modelled as an exact rational
    ([Q]): no rounding, no [NaN], no infinities.  Arithmetic facts are
    therefore stated up to [==] ([Qeq]); facts about copied values are
    stated with Leibniz equality.  A division by zero, which the
    language answers with an infinity or [NaN], is outside the model
    ([Q] answers 0): the statements that divide by the width of the
    preview canvas assume it is not zero, and the template fixes it at
    1920.  Where rounding decides a statement, the code is read a
    second time in the language's own binary64 arithmetic: module
    [Double] holds the spring and the interpolation on primitive
    floats.

    Asynchrony.  The awaits of the source (fonts, image loading, the
    next animation frame) only order the calls; the functions below
    give the state and the drawing calls each run produces. *)

From Stdlib Require Import QArith Qabs Qminmax Qround Lqa Lia ZArith.
From Stdlib Require Import Bool List String Ascii DecimalString.
From Stdlib Require Import Floats.PrimFloat.
Import ListNotations.

Open Scope Q_scope.

(** ** Comparisons on numbers, as booleans *)

(** [a < b] of the source. *)
Definition Qltb (a b : Q) : bool := negb (Qle_bool b a).

(** ** Spring animator *)

(** [interface AnimationState]. *)
Record AnimationState : Type := mkAnimationState {
  value : Q;
  target : Q;
  velocity : Q
}.

(** [createAnimationState(initialValue = 0)]. *)
Definition createAnimationState (initialValue : Q) : AnimationState :=
  {| value := initialValue; target := initialValue; velocity := 0 |}.

Definition SPRING_STIFFNESS : Q := 200.
Definition SPRING_DAMPING : Q := 20.
Definition SPRING_MASS : Q := 1.
Definition SPRING_PRECISION : Q := 1 # 100.

(** The test of the early return of [updateSpringAnimation]:
    [Math.abs(displacement) < SPRING_PRECISION &&
     Math.abs(state.velocity) < SPRING_PRECISION]. *)
Definition atRest (state : AnimationState) : bool :=
  let displacement := target state - value state in
  Qltb (Qabs displacement) SPRING_PRECISION
  && Qltb (Qabs (velocity state)) SPRING_PRECISION.

(** [updateSpringAnimation(state, dt)].  The source mutates [state] in
    place and returns a boolean; here the new state is returned next to
    the boolean ([true]: still animating, [false]: settled). *)
Definition updateSpringAnimation (state : AnimationState) (dt : Q)
  : AnimationState * bool :=
  let displacement := target state - value state in
  if Qltb (Qabs displacement) SPRING_PRECISION
     && Qltb (Qabs (velocity state)) SPRING_PRECISION
  then
    ({| value := target state; target := target state; velocity := 0 |},
     false)
  else
    let springForce := SPRING_STIFFNESS * displacement in
    let dampingForce := - SPRING_DAMPING * velocity state in
    let force := springForce + dampingForce in
    let acceleration := force / SPRING_MASS in
    let velocity' := velocity state + acceleration * dt in
    let value' := value state + velocity' * dt in
    ({| value := value'; target := target state; velocity := velocity' |},
     true).

(** The state after one tick, and after [n] ticks with the same [dt]. *)
Definition tick (dt : Q) (state : AnimationState) : AnimationState :=
  fst (updateSpringAnimation state dt).

Fixpoint ticks (n : nat) (dt : Q) (state : AnimationState)
  : AnimationState :=
  match n with
  | O => state
  | S n' => ticks n' dt (tick dt state)
  end.

(** [Math.min((currentTime - lastTime) / 1000, 0.1)] of [animationLoop];
    the two times are [performance.now()] readings, in milliseconds. *)
Definition deltaTime (currentTime lastTime : Q) : Q :=
  Qmin ((currentTime - lastTime) / 1000) (1 # 10).

(** ** Configuration objects (the component's [props])

    The interfaces live in [@/lib/type], which is not part of the
    component; the fields below are the ones the component reads. *)

Record Position : Type := mkPosition { x : Q; y : Q }.

Module TitleConfig.
Record Effects : Type := mkEffects {
  bold : bool;
  italic : bool;
  textShadow : Q   (* an absent value behaves as [0] *)
}.
Record t : Type := mk {
  text : string;
  color : string;
  font : string;
  size : Q;
  position : Position;
  effects : Effects
}.
End TitleConfig.

Module WatermarkConfig.
Record Effects : Type := mkEffects {
  bold : bool;
  italic : bool;
  uppercase : bool
}.
Record t : Type := mk {
  text : string;
  color : string;
  font : string;
  size : Q;
  position : Position;
  opacity : Q;
  effects : Effects
}.
End WatermarkConfig.

Module IconConfig.
Record t : Type := mk {
  svg : string;
  size : Q;
  position : Position;
  shadowColor : string;
  shadowSize : Q
}.
End IconConfig.

(** An image element: only its intrinsic size is read. *)
Record Image : Type := mkImage { imgWidth : Q; imgHeight : Q }.

(** Modelled from the spec: [BACKGROUND_TYPE] of [@/lib/constant] is
    missing; the spec gives type in {color, gradient, image}. *)
Inductive BackgroundType : Type := COLOR | GRADIENT | IMAGE.

(** Modelled from the spec: [GRADIENT_DIRECTION] of [@/lib/constant] is
    missing; the spec gives 8 compass values, the eight [case] labels of
    the component.  [OTHER_DIRECTION] stands for any value that reaches
    the [default] label. *)
Inductive GradientDirection : Type :=
  | TO_RIGHT | TO_LEFT | TO_BOTTOM | TO_TOP
  | TO_BOTTOM_RIGHT | TO_BOTTOM_LEFT | TO_TOP_RIGHT | TO_TOP_LEFT
  | OTHER_DIRECTION.

Module BackgroundConfig.
Record GradientConfig : Type := mkGradient {
  startColor : string;
  endColor : string;
  direction : GradientDirection
}.
Record t : Type := mk {
  type : BackgroundType;
  color : string;
  gradient : GradientConfig;
  imageObj : option Image;
  opacity : Q;
  blur : Q
}.
End BackgroundConfig.

Module ExportConfig.
Record t : Type := mk {
  width : Q;
  height : Q;
  format : string;
  quality : Q;
  fileName : string;
  useRandomFileName : bool;
  currentRandomFileName : option string   (* [None]: absent *)
}.
End ExportConfig.

Record Props : Type := mkProps {
  backgroundConfig : BackgroundConfig.t;
  iconConfig : IconConfig.t;
  titleConfig : TitleConfig.t;
  watermarkConfig : WatermarkConfig.t
}.

(** ** The animation-state table *)

(** [const animationStates = { titleSize: ..., ... }], in key order. *)
Record AnimationStates : Type := mkAnimationStates {
  titleSize : AnimationState;
  titleX : AnimationState;
  titleY : AnimationState;
  watermarkSize : AnimationState;
  watermarkX : AnimationState;
  watermarkY : AnimationState;
  iconSize : AnimationState;
  iconX : AnimationState;
  iconY : AnimationState;
  watermarkOpacity : AnimationState;
  backgroundBlur : AnimationState
}.

(** The table at creation: every entry is [createAnimationState()]. *)
Definition animationStates0 : AnimationStates :=
  let s := createAnimationState 0 in
  mkAnimationStates s s s s s s s s s s s.

(** [Object.keys(animationStates).forEach(key => ...)] with a body that
    rewrites the state of each key. *)
Definition forEachState (f : AnimationState -> AnimationState)
  (a : AnimationStates) : AnimationStates :=
  {| titleSize := f (titleSize a);
     titleX := f (titleX a);
     titleY := f (titleY a);
     watermarkSize := f (watermarkSize a);
     watermarkX := f (watermarkX a);
     watermarkY := f (watermarkY a);
     iconSize := f (iconSize a);
     iconX := f (iconX a);
     iconY := f (iconY a);
     watermarkOpacity := f (watermarkOpacity a);
     backgroundBlur := f (backgroundBlur a) |}.

(** The states of the table, in key order. *)
Definition stateList (a : AnimationStates) : list AnimationState :=
  [titleSize a; titleX a; titleY a; watermarkSize a; watermarkX a;
   watermarkY a; iconSize a; iconX a; iconY a; watermarkOpacity a;
   backgroundBlur a].

(** [state.target = v]. *)
Definition setTarget (v : Q) (s : AnimationState) : AnimationState :=
  {| value := value s; target := v; velocity := velocity s |}.

(** [state.value = state.target]. *)
Definition snapToTarget (s : AnimationState) : AnimationState :=
  {| value := target s; target := target s; velocity := velocity s |}.

(** The assignments of the targets at the head of
    [updateAnimationTargets]. *)
Definition assignTargets (props : Props) (a : AnimationStates)
  : AnimationStates :=
  let tc := titleConfig props in
  let wc := watermarkConfig props in
  let ic := iconConfig props in
  {| titleSize := setTarget (TitleConfig.size tc) (titleSize a);
     titleX := setTarget (x (TitleConfig.position tc)) (titleX a);
     titleY := setTarget (y (TitleConfig.position tc)) (titleY a);
     watermarkSize := setTarget (WatermarkConfig.size wc) (watermarkSize a);
     watermarkX := setTarget (x (WatermarkConfig.position wc)) (watermarkX a);
     watermarkY := setTarget (y (WatermarkConfig.position wc)) (watermarkY a);
     iconSize := setTarget (IconConfig.size ic) (iconSize a);
     iconX := setTarget (x (IconConfig.position ic)) (iconX a);
     iconY := setTarget (y (IconConfig.position ic)) (iconY a);
     watermarkOpacity :=
       setTarget (WatermarkConfig.opacity wc) (watermarkOpacity a);
     backgroundBlur :=
       setTarget (BackgroundConfig.blur (backgroundConfig props))
                 (backgroundBlur a) |}.

(** [updateAnimationTargets()]: the table after the call.  The call to
    [startAnimationLoop] that ends it touches no state; the loop's ticks
    are [animationLoopTick] below. *)
Definition updateAnimationTargets (props : Props) (a : AnimationStates)
  : AnimationStates :=
  let a1 := assignTargets props a in
  if Qeq_bool (value (titleSize a1)) 0
  then forEachState snapToTarget a1
  else a1.

(** One run of [animationLoop] at time [currentTime], the previous run
    (or the start of the loop) having been at [lastTime]: the new
    [lastTime], the table with every state ticked by [deltaTime], and
    [anyActive]. *)
Definition animationLoop (currentTime lastTime : Q) (a : AnimationStates)
  : Q * AnimationStates * bool :=
  let dt := deltaTime currentTime lastTime in
  (currentTime,
   forEachState (tick dt) a,
   existsb (fun s => snd (updateSpringAnimation s dt)) (stateList a)).

(** The table after [n] runs of the loop that all measured the same
    [deltaTime]. *)
Fixpoint loopTicks (n : nat) (dt : Q) (a : AnimationStates) : AnimationStates :=
  match n with
  | O => a
  | S n' => loopTicks n' dt (forEachState (tick dt) a)
  end.

(** ** Strings and the conversions the templates use

    A string is a list of bytes; the JavaScript operations below are
    modelled on ASCII text, where bytes and UTF-16 code units agree. *)

Open Scope string_scope.

(** Truthiness of a string in a condition: the empty string is falsy. *)
Definition truthy (s : string) : bool :=
  match s with
  | EmptyString => false
  | String _ _ => true
  end.

(** [s.slice(from, to)] for [0 <= from <= to]. *)
Definition slice (s : string) (from to : nat) : string :=
  substring from (to - from) s.

Definition upperAscii (c : ascii) : ascii :=
  let n := N_of_ascii c in
  if (97 <=? n)%N && (n <=? 122)%N then ascii_of_N (n - 32) else c.

(** [s.toUpperCase()], on the ASCII letters. *)
Fixpoint toUpperCase (s : string) : string :=
  match s with
  | EmptyString => EmptyString
  | String c s' => String (upperAscii c) (toUpperCase s')
  end.

(** The value of a character as a digit of radix 16. *)
Definition hexDigit (c : ascii) : option Z :=
  let n := Z.of_N (N_of_ascii c) in
  if (48 <=? n)%Z && (n <=? 57)%Z then Some (n - 48)%Z
  else if (65 <=? n)%Z && (n <=? 70)%Z then Some (n - 55)%Z
  else if (97 <=? n)%Z && (n <=? 102)%Z then Some (n - 87)%Z
  else None.

Definition isWhiteSpace (c : ascii) : bool :=
  let n := N_of_ascii c in
  ((9 <=? n)%N && (n <=? 13)%N) || (n =? 32)%N.

Fixpoint trimStart (s : string) : string :=
  match s with
  | String c s' => if isWhiteSpace c then trimStart s' else s
  | EmptyString => s
  end.

(** The longest prefix of hexadecimal digits of [s], read in radix 16
    after the digits already read ([acc]); [None] when no digit was
    read at all. *)
Fixpoint hexPrefix (s : string) (acc : option Z) : option Z :=
  match s with
  | String c s' =>
      match hexDigit c with
      | Some d =>
          hexPrefix s' (Some (16 * match acc with Some a => a | None => 0 end
                              + d)%Z)
      | None => acc
      end
  | EmptyString => acc
  end.

(** [parseInt(s, 16)]; [None] is [NaN].  Leading white space, a sign
    and a [0x] prefix are accepted, and parsing stops at the first
    character that is no digit, as the language defines it. *)
Definition parseInt16 (s : string) : option Z :=
  let s1 := trimStart s in
  let '(sign, s2) :=
    match s1 with
    | String "-"%char r => ((-1)%Z, r)
    | String "+"%char r => (1%Z, r)
    | _ => (1%Z, s1)
    end in
  let s3 :=
    match s2 with
    | String "0"%char (String "x"%char r) => r
    | String "0"%char (String "X"%char r) => r
    | _ => s2
    end in
  match hexPrefix s3 None with
  | Some n => Some (sign * n)%Z
  | None => None
  end.

(** An integer in decimal, as a template prints it. *)
Definition intToString (n : Z) : string :=
  NilZero.string_of_int (Z.to_int n).

(** A parsed integer inside a template: [NaN] prints as such. *)
Definition parsedToString (n : option Z) : string :=
  match n with
  | Some z => intToString z
  | None => "NaN"
  end.

(** The double-quote character, and a family name between quotes. *)
Definition dquote : string := String (ascii_of_nat 34) EmptyString.

Definition quoted (name : string) : string := dquote ++ name ++ dquote.

(** [getFontFamilyWithFallback(font)]. *)
Definition getFontFamilyWithFallback (font : string) : string :=
  if font =? "Maple Mono CN" then
    quoted "Maple Mono CN" ++ ", " ++ quoted "Courier New" ++ ", "
    ++ quoted "Consolas" ++ ", monospace"
  else if font =? "Fira Code" then
    quoted "Fira Code" ++ ", " ++ quoted "Courier New" ++ ", "
    ++ quoted "Consolas" ++ ", monospace"
  else if font =? "Lato" then
    quoted "Lato" ++ ", " ++ quoted "Helvetica Neue" ++ ", "
    ++ quoted "Arial" ++ ", sans-serif"
  else if font =? "Microsoft YaHei" then
    quoted "Microsoft YaHei" ++ ", " ++ quoted "微软雅黑" ++ ", "
    ++ quoted "SimHei" ++ ", " ++ quoted "Arial Unicode MS" ++ ", sans-serif"
  else if font =? "PingFang SC" then
    quoted "PingFang SC" ++ ", " ++ quoted "苹方" ++ ", "
    ++ quoted "Helvetica Neue" ++ ", " ++ quoted "Arial" ++ ", sans-serif"
  else if font =? "Source Han Sans CN" then
    quoted "Source Han Sans CN" ++ ", " ++ quoted "思源黑体" ++ ", "
    ++ quoted "Noto Sans CJK SC" ++ ", " ++ quoted "Microsoft YaHei"
    ++ ", sans-serif"
  else if font =? "Arial" then
    "Arial, " ++ quoted "Helvetica Neue" ++ ", Helvetica, sans-serif"
  else if font =? "Helvetica" then
    "Helvetica, " ++ quoted "Helvetica Neue" ++ ", Arial, sans-serif"
  else if font =? "monospace" then
    quoted "Courier New" ++ ", Consolas, " ++ quoted "Liberation Mono"
    ++ ", monospace"
  else if font =? "serif" then
    quoted "Times New Roman" ++ ", Times, " ++ quoted "Songti SC" ++ ", serif"
  else
    quoted font ++ ", Arial, sans-serif".

(** ** The 2D drawing context

    A canvas is its size, the current state of its context, the stack
    of [save()]d states and the drawing calls made so far (oldest
    first); each call keeps the context state it was made in, so every
    style, width and shadow a call was drawn with can be read back. *)

Inductive FontWeight : Type := normal | boldWeight.

(** The three parts of the template [`${weight} ${size}px ${family}`]. *)
Record Font : Type := mkFont {
  fontWeight : FontWeight;
  fontSize : Q;
  fontFamily : string
}.

Inductive TextAlign : Type := alignStart | alignLeft | alignCenter | alignRight.
Inductive TextBaseline : Type := alphabetic | middle.

(** A [CanvasGradient]: the line of [createLinearGradient] and the
    stops added to it, in order. *)
Record Gradient : Type := mkGradientObj {
  gx0 : Q; gy0 : Q; gx1 : Q; gy1 : Q;
  colorStops : list (Q * string)
}.

Inductive Style : Type :=
  | css (s : string)
  | gradientStyle (g : Gradient).

(** [ctx.filter]: ["none"] or [`blur(${px}px)`]. *)
Inductive Filter : Type := filterNone | filterBlur (px : Q).

(** The current transformation [a b c d e f]. *)
Record Matrix : Type := mkMatrix {
  ma : Q; mb : Q; mc : Q; md : Q; me : Q; mf : Q
}.

Definition identity : Matrix := mkMatrix 1 0 0 1 0 0.

(** [m] followed by the transform [(a, b, c, d, e, f)]. *)
Definition compose (m : Matrix) (a b c d e f : Q) : Matrix :=
  {| ma := ma m * a + mc m * b;
     mb := mb m * a + md m * b;
     mc := ma m * c + mc m * d;
     md := mb m * c + md m * d;
     me := ma m * e + mc m * f + me m;
     mf := mb m * e + md m * f + mf m |}.

Record Context2D : Type := mkContext2D {
  fillStyle : Style;
  strokeStyle : Style;
  lineWidth : Q;
  font : Font;
  shadowColor : string;
  shadowBlur : Q;
  shadowOffsetX : Q;
  shadowOffsetY : Q;
  textAlign : TextAlign;
  textBaseline : TextBaseline;
  globalAlpha : Q;
  filter : Filter;
  imageSmoothingEnabled : bool;
  imageSmoothingQuality : string;
  currentTransform : Matrix
}.

(** The state of the context of a new canvas. *)
Definition defaultContext : Context2D :=
  {| fillStyle := css "#000000";
     strokeStyle := css "#000000";
     lineWidth := 1;
     font := mkFont normal 10 "sans-serif";
     shadowColor := "rgba(0, 0, 0, 0)";
     shadowBlur := 0;
     shadowOffsetX := 0;
     shadowOffsetY := 0;
     textAlign := alignStart;
     textBaseline := alphabetic;
     globalAlpha := 1;
     filter := filterNone;
     imageSmoothingEnabled := true;
     imageSmoothingQuality := "low";
     currentTransform := identity |}.

(** What [drawImage] draws: an image element, or the off-screen canvas
    the image was copied to at its own size. *)
Inductive ImageSource : Type :=
  | imageElement (img : Image)
  | offscreenCopy (img : Image).

Inductive DrawCall : Type :=
  | fillRect (ctx : Context2D) (rx ry rw rh : Q)
  | drawImage (ctx : Context2D) (src : ImageSource) (dx dy dw dh : Q)
  | strokeText (ctx : Context2D) (txt : string) (tx ty : Q)
  | fillText (ctx : Context2D) (txt : string) (tx ty : Q).

Record Canvas : Type := mkCanvas {
  width : Q;
  height : Q;
  context : Context2D;
  saved : list Context2D;
  calls : list DrawCall
}.

(** [document.createElement("canvas")] with its size set. *)
Definition newCanvas (w h : Q) : Canvas :=
  {| width := w; height := h; context := defaultContext;
     saved := []; calls := [] |}.

(** The preview canvas of the template: [:width="1920" :height="1080"]. *)
Definition previewCanvas0 : Canvas := newCanvas 1920 1080.

Definition withContext (f : Context2D -> Context2D) (c : Canvas) : Canvas :=
  {| width := width c; height := height c; context := f (context c);
     saved := saved c; calls := calls c |}.

Definition emit (call : Context2D -> DrawCall) (c : Canvas) : Canvas :=
  {| width := width c; height := height c; context := context c;
     saved := saved c; calls := calls c ++ [call (context c)] |}.

(** Assignments to the properties of the context. *)
Definition set_fillStyle (v : Style) : Canvas -> Canvas :=
  withContext (fun k =>
    mkContext2D v (strokeStyle k) (lineWidth k) (font k) (shadowColor k)
      (shadowBlur k) (shadowOffsetX k) (shadowOffsetY k) (textAlign k)
      (textBaseline k) (globalAlpha k) (filter k) (imageSmoothingEnabled k)
      (imageSmoothingQuality k) (currentTransform k)).
Definition set_strokeStyle (v : Style) : Canvas -> Canvas :=
  withContext (fun k =>
    mkContext2D (fillStyle k) v (lineWidth k) (font k) (shadowColor k)
      (shadowBlur k) (shadowOffsetX k) (shadowOffsetY k) (textAlign k)
      (textBaseline k) (globalAlpha k) (filter k) (imageSmoothingEnabled k)
      (imageSmoothingQuality k) (currentTransform k)).
Definition set_lineWidth (v : Q) : Canvas -> Canvas :=
  withContext (fun k =>
    mkContext2D (fillStyle k) (strokeStyle k) v (font k) (shadowColor k)
      (shadowBlur k) (shadowOffsetX k) (shadowOffsetY k) (textAlign k)
      (textBaseline k) (globalAlpha k) (filter k) (imageSmoothingEnabled k)
      (imageSmoothingQuality k) (currentTransform k)).
Definition set_font (v : Font) : Canvas -> Canvas :=
  withContext (fun k =>
    mkContext2D (fillStyle k) (strokeStyle k) (lineWidth k) v
      (shadowColor k) (shadowBlur k) (shadowOffsetX k) (shadowOffsetY k)
      (textAlign k) (textBaseline k) (globalAlpha k) (filter k)
      (imageSmoothingEnabled k) (imageSmoothingQuality k)
      (currentTransform k)).
Definition set_shadowColor (v : string) : Canvas -> Canvas :=
  withContext (fun k =>
    mkContext2D (fillStyle k) (strokeStyle k) (lineWidth k) (font k) v
      (shadowBlur k) (shadowOffsetX k) (shadowOffsetY k) (textAlign k)
      (textBaseline k) (globalAlpha k) (filter k) (imageSmoothingEnabled k)
      (imageSmoothingQuality k) (currentTransform k)).
Definition set_shadowBlur (v : Q) : Canvas -> Canvas :=
  withContext (fun k =>
    mkContext2D (fillStyle k) (strokeStyle k) (lineWidth k) (font k)
      (shadowColor k) v (shadowOffsetX k) (shadowOffsetY k) (textAlign k)
      (textBaseline k) (globalAlpha k) (filter k) (imageSmoothingEnabled k)
      (imageSmoothingQuality k) (currentTransform k)).
Definition set_shadowOffsetX (v : Q) : Canvas -> Canvas :=
  withContext (fun k =>
    mkContext2D (fillStyle k) (strokeStyle k) (lineWidth k) (font k)
      (shadowColor k) (shadowBlur k) v (shadowOffsetY k) (textAlign k)
      (textBaseline k) (globalAlpha k) (filter k) (imageSmoothingEnabled k)
      (imageSmoothingQuality k) (currentTransform k)).
Definition set_shadowOffsetY (v : Q) : Canvas -> Canvas :=
  withContext (fun k =>
    mkContext2D (fillStyle k) (strokeStyle k) (lineWidth k) (font k)
      (shadowColor k) (shadowBlur k) (shadowOffsetX k) v (textAlign k)
      (textBaseline k) (globalAlpha k) (filter k) (imageSmoothingEnabled k)
      (imageSmoothingQuality k) (currentTransform k)).
Definition set_textAlign (v : TextAlign) : Canvas -> Canvas :=
  withContext (fun k =>
    mkContext2D (fillStyle k) (strokeStyle k) (lineWidth k) (font k)
      (shadowColor k) (shadowBlur k) (shadowOffsetX k) (shadowOffsetY k) v
      (textBaseline k) (globalAlpha k) (filter k) (imageSmoothingEnabled k)
      (imageSmoothingQuality k) (currentTransform k)).
Definition set_textBaseline (v : TextBaseline) : Canvas -> Canvas :=
  withContext (fun k =>
    mkContext2D (fillStyle k) (strokeStyle k) (lineWidth k) (font k)
      (shadowColor k) (shadowBlur k) (shadowOffsetX k) (shadowOffsetY k)
      (textAlign k) v (globalAlpha k) (filter k) (imageSmoothingEnabled k)
      (imageSmoothingQuality k) (currentTransform k)).
Definition set_globalAlpha (v : Q) : Canvas -> Canvas :=
  withContext (fun k =>
    mkContext2D (fillStyle k) (strokeStyle k) (lineWidth k) (font k)
      (shadowColor k) (shadowBlur k) (shadowOffsetX k) (shadowOffsetY k)
      (textAlign k) (textBaseline k) v (filter k) (imageSmoothingEnabled k)
      (imageSmoothingQuality k) (currentTransform k)).
Definition set_filter (v : Filter) : Canvas -> Canvas :=
  withContext (fun k =>
    mkContext2D (fillStyle k) (strokeStyle k) (lineWidth k) (font k)
      (shadowColor k) (shadowBlur k) (shadowOffsetX k) (shadowOffsetY k)
      (textAlign k) (textBaseline k) (globalAlpha k) v
      (imageSmoothingEnabled k) (imageSmoothingQuality k)
      (currentTransform k)).
Definition set_imageSmoothingEnabled (v : bool) : Canvas -> Canvas :=
  withContext (fun k =>
    mkContext2D (fillStyle k) (strokeStyle k) (lineWidth k) (font k)
      (shadowColor k) (shadowBlur k) (shadowOffsetX k) (shadowOffsetY k)
      (textAlign k) (textBaseline k) (globalAlpha k) (filter k) v
      (imageSmoothingQuality k) (currentTransform k)).
Definition set_imageSmoothingQuality (v : string) : Canvas -> Canvas :=
  withContext (fun k =>
    mkContext2D (fillStyle k) (strokeStyle k) (lineWidth k) (font k)
      (shadowColor k) (shadowBlur k) (shadowOffsetX k) (shadowOffsetY k)
      (textAlign k) (textBaseline k) (globalAlpha k) (filter k)
      (imageSmoothingEnabled k) v (currentTransform k)).
Definition set_currentTransform (v : Matrix) : Canvas -> Canvas :=
  withContext (fun k =>
    mkContext2D (fillStyle k) (strokeStyle k) (lineWidth k) (font k)
      (shadowColor k) (shadowBlur k) (shadowOffsetX k) (shadowOffsetY k)
      (textAlign k) (textBaseline k) (globalAlpha k) (filter k)
      (imageSmoothingEnabled k) (imageSmoothingQuality k) v).

(** [ctx.save()] and [ctx.restore()]. *)
Definition save (c : Canvas) : Canvas :=
  {| width := width c; height := height c; context := context c;
     saved := context c :: saved c; calls := calls c |}.

Definition restore (c : Canvas) : Canvas :=
  match saved c with
  | s :: rest =>
      {| width := width c; height := height c; context := s;
         saved := rest; calls := calls c |}
  | [] => c
  end.

(** [ctx.translate(tx, ty)] and [ctx.transform(a, b, c, d, e, f)]. *)
Definition transform (a b c' d e f : Q) (c : Canvas) : Canvas :=
  set_currentTransform (compose (currentTransform (context c)) a b c' d e f) c.

Definition translate (tx ty : Q) (c : Canvas) : Canvas :=
  transform 1 0 0 1 tx ty c.

(** [ctx.createLinearGradient(x0, y0, x1, y1)] and
    [gradient.addColorStop(offset, color)]. *)
Definition createLinearGradient (x0 y0 x1 y1 : Q) : Gradient :=
  mkGradientObj x0 y0 x1 y1 [].

Definition addColorStop (offset : Q) (color : string) (g : Gradient) : Gradient :=
  mkGradientObj (gx0 g) (gy0 g) (gx1 g) (gy1 g) (colorStops g ++ [(offset, color)]).

(** ** The frame renderer and the exporter *)

Section Rendering.

(** The browser's part: the width [measureText] reports for a text in
    a font, the image an SVG source loads to ([None]: [onerror]),
    whether an off-screen 2D context can be obtained, and the string
    the language converts a number to inside a template. *)
Variable measureText : Font -> string -> Q.
Variable loadSvg : string -> option Image.
Variable offscreenContext : bool.
Variable numberToString : Q -> string.

(** The template [`rgba(${r}, ${g}, ${b}, ${opacity})`]. *)
Definition rgbaTemplate (r g b : option Z) (opacity : Q) : string :=
  "rgba(" ++ parsedToString r ++ ", " ++ parsedToString g ++ ", "
  ++ parsedToString b ++ ", " ++ numberToString opacity ++ ")".

(** [drawShadow(ctx)] and [clearShadow(ctx)]. *)
Definition drawShadow (props : Props) (c : Canvas) : Canvas :=
  if Qltb 0 (IconConfig.shadowSize (iconConfig props)) then
    let c := set_shadowColor (IconConfig.shadowColor (iconConfig props)) c in
    let c := set_shadowBlur (IconConfig.shadowSize (iconConfig props)) c in
    let c := set_shadowOffsetX 0 c in
    set_shadowOffsetY 0 c
  else c.

Definition clearShadow (c : Canvas) : Canvas :=
  let c := set_shadowColor "transparent" c in
  let c := set_shadowBlur 0 c in
  let c := set_shadowOffsetX 0 c in
  set_shadowOffsetY 0 c.

(** The drawing both branches of [drawIcon] share: shadow, the image
    at its aspect ratio around [(px, py)], shadow cleared. *)
Definition drawIconImage (props : Props) (img : Image) (px py size : Q)
  (c : Canvas) : Canvas :=
  let c := drawShadow props c in
  let aspectRatio := imgWidth img / imgHeight img in
  let drawWidth := if Qltb 1 aspectRatio then size else size * aspectRatio in
  let drawHeight := if Qltb 1 aspectRatio then size / aspectRatio else size in
  let c := emit (fun ctx =>
             drawImage ctx (imageElement img)
               (px - drawWidth / 2) (py - drawHeight / 2) drawWidth drawHeight) c in
  clearShadow c.

(** [drawIcon(ctx, x, y, size)], with the module variable
    [iconImageCache] passed in and returned. *)
Definition drawIcon (props : Props) (iconImageCache : option Image)
  (px py size : Q) (c : Canvas) : Canvas * option Image :=
  if negb (truthy (IconConfig.svg (iconConfig props))) then (c, iconImageCache)
  else
    match iconImageCache with
    | Some img => (drawIconImage props img px py size c, iconImageCache)
    | None =>
        match loadSvg (IconConfig.svg (iconConfig props)) with
        | Some img => (drawIconImage props img px py size c, Some img)
        | None => (c, iconImageCache)
        end
    end.

(** The colour branch of the background of [renderFrame]. *)
Definition renderFrame_color (props : Props) (c : Canvas) : Canvas :=
  let bg := backgroundConfig props in
  let opacity := BackgroundConfig.opacity bg / 100 in
  let color := BackgroundConfig.color bg in
  let r := parseInt16 (slice color 1 3) in
  let g := parseInt16 (slice color 3 5) in
  let b := parseInt16 (slice color 5 7) in
  let c := set_fillStyle (css (rgbaTemplate r g b opacity)) c in
  emit (fun ctx => fillRect ctx 0 0 (width c) (height c)) c.

(** The gradient branch. *)
Definition renderFrame_gradient (props : Props) (c : Canvas) : Canvas :=
  let bg := backgroundConfig props in
  let startColor := BackgroundConfig.startColor (BackgroundConfig.gradient bg) in
  let endColor := BackgroundConfig.endColor (BackgroundConfig.gradient bg) in
  let direction := BackgroundConfig.direction (BackgroundConfig.gradient bg) in
  let opacity := BackgroundConfig.opacity bg / 100 in
  let gradient :=
    match direction with
    | TO_RIGHT => createLinearGradient 0 0 (width c) 0
    | TO_LEFT => createLinearGradient (width c) 0 0 0
    | TO_BOTTOM => createLinearGradient 0 0 0 (height c)
    | TO_TOP => createLinearGradient 0 (height c) 0 0
    | TO_BOTTOM_RIGHT => createLinearGradient 0 0 (width c) (height c)
    | TO_BOTTOM_LEFT => createLinearGradient (width c) 0 0 (height c)
    | TO_TOP_RIGHT => createLinearGradient 0 (height c) (width c) 0
    | TO_TOP_LEFT => createLinearGradient (width c) (height c) 0 0
    | OTHER_DIRECTION => createLinearGradient 0 0 (width c) (height c)
    end in
  let startR := parseInt16 (slice startColor 1 3) in
  let startG := parseInt16 (slice startColor 3 5) in
  let startB := parseInt16 (slice startColor 5 7) in
  let endR := parseInt16 (slice endColor 1 3) in
  let endG := parseInt16 (slice endColor 3 5) in
  let endB := parseInt16 (slice endColor 5 7) in
  let gradient := addColorStop 0 (rgbaTemplate startR startG startB opacity) gradient in
  let gradient := addColorStop 1 (rgbaTemplate endR endG endB opacity) gradient in
  let c := set_fillStyle (gradientStyle gradient) c in
  emit (fun ctx => fillRect ctx 0 0 (width c) (height c)) c.

(** The image branch: the image covers the canvas at its own aspect
    ratio, centred, drawn directly or through an off-screen copy. *)
Definition renderFrame_image (props : Props) (img : Image) (c : Canvas) : Canvas :=
  let bg := backgroundConfig props in
  let c :=
    if Qltb 0 (BackgroundConfig.blur bg)
    then set_filter (filterBlur (BackgroundConfig.blur bg)) c
    else set_filter filterNone c in
  let imgRatio := imgWidth img / imgHeight img in
  let canvasRatio := width c / height c in
  let wider := Qltb canvasRatio imgRatio in
  let drawHeight := if wider then height c else width c / imgRatio in
  let drawWidth := if wider then height c * imgRatio else width c in
  let offsetX := if wider then (width c - drawWidth) / 2 else 0 in
  let offsetY := if wider then 0 else (height c - drawHeight) / 2 in
  let c :=
    if negb offscreenContext then
      emit (fun ctx =>
        drawImage ctx (imageElement img) offsetX offsetY drawWidth drawHeight) c
    else
      let c := set_imageSmoothingEnabled true c in
      let c := set_imageSmoothingQuality "high" c in
      emit (fun ctx =>
        drawImage ctx (offscreenCopy img) offsetX offsetY drawWidth drawHeight) c in
  set_filter filterNone c.

(** The background of [renderFrame]: the three-way [if]. *)
Definition renderFrame_background (props : Props) (c : Canvas) : Canvas :=
  match BackgroundConfig.type (backgroundConfig props) with
  | COLOR => renderFrame_color props c
  | GRADIENT => renderFrame_gradient props c
  | IMAGE =>
      match BackgroundConfig.imageObj (backgroundConfig props) with
      | Some img => renderFrame_image props img c
      | None => c
      end
  end.

(** The icon of [renderFrame]: the centre of the icon on each axis,
    then [drawIcon]. *)
Definition renderFrame_iconPosX (c : Canvas) (currentIconSize currentIconX : Q) : Q :=
  let iconSize := currentIconSize in
  let halfIconSize := iconSize / 2 in
  if Qle_bool currentIconX 0 then halfIconSize
  else if Qle_bool 100 currentIconX then width c - halfIconSize
  else
    let minX := halfIconSize in
    let maxX := width c - halfIconSize in
    minX + (maxX - minX) * (currentIconX / 100).

Definition renderFrame_iconPosY (c : Canvas) (currentIconSize currentIconY : Q) : Q :=
  let iconSize := currentIconSize in
  let halfIconSize := iconSize / 2 in
  if Qle_bool currentIconY 0 then halfIconSize
  else if Qle_bool 100 currentIconY then height c - halfIconSize
  else
    let minY := halfIconSize in
    let maxY := height c - halfIconSize in
    minY + (maxY - minY) * (currentIconY / 100).

Definition renderFrame_icon (props : Props) (iconImageCache : option Image)
  (currentIconSize currentIconX currentIconY : Q) (c : Canvas)
  : Canvas * option Image :=
  if truthy (IconConfig.svg (iconConfig props)) then
    let iconPosX := renderFrame_iconPosX c currentIconSize currentIconX in
    let iconPosY := renderFrame_iconPosY c currentIconSize currentIconY in
    drawIcon props iconImageCache iconPosX iconPosY currentIconSize c
  else (c, iconImageCache).

(** The title of [renderFrame]: the horizontal anchor of the text
    with its [textAlign], the vertical position of its middle line,
    then the strokes. *)
Definition renderFrame_titlePosX (c : Canvas) (titleTextWidth currentTitleX : Q)
  : TextAlign * Q :=
  if Qle_bool currentTitleX 0 then (alignLeft, 0)
  else if Qle_bool 100 currentTitleX then (alignRight, width c)
  else
    let minX := titleTextWidth / 2 in
    let maxX := width c - titleTextWidth / 2 in
    (alignCenter, minX + (maxX - minX) * (currentTitleX / 100)).

Definition renderFrame_titlePosY (c : Canvas) (titleTextHeight currentTitleY : Q) : Q :=
  let halfTitleHeight := titleTextHeight / 2 in
  if Qle_bool currentTitleY 0 then halfTitleHeight
  else if Qle_bool 100 currentTitleY then height c - halfTitleHeight
  else
    let minY := halfTitleHeight in
    let maxY := height c - halfTitleHeight in
    minY + (maxY - minY) * (currentTitleY / 100).

Definition renderFrame_title (props : Props) (currentTitleX currentTitleY : Q)
  (c : Canvas) : Canvas :=
  let tc := titleConfig props in
  if truthy (TitleConfig.text tc) then
    let c := save c in
    let c := set_fillStyle (css (TitleConfig.color tc)) c in
    let titleFontFamily := getFontFamilyWithFallback (TitleConfig.font tc) in
    let titleFontWeight :=
      if TitleConfig.bold (TitleConfig.effects tc) then boldWeight else normal in
    let c := set_font (mkFont titleFontWeight (TitleConfig.size tc) titleFontFamily) c in
    let c :=
      if Qltb 0 (TitleConfig.textShadow (TitleConfig.effects tc)) then
        let shadowSize := TitleConfig.textShadow (TitleConfig.effects tc) in
        let shadowColor := TitleConfig.color tc in
        let c := set_shadowColor shadowColor c in
        let c := set_shadowBlur (shadowSize * 2) c in
        let c := set_shadowOffsetX shadowSize c in
        set_shadowOffsetY shadowSize c
      else c in
    let titleTextWidth := measureText (font (context c)) (TitleConfig.text tc) in
    let titleTextHeight := TitleConfig.size tc in
    let '(align, titlePosX) := renderFrame_titlePosX c titleTextWidth currentTitleX in
    let c := set_textAlign align c in
    let c := set_textBaseline middle c in
    let titlePosY := renderFrame_titlePosY c titleTextHeight currentTitleY in
    let c := set_font (mkFont titleFontWeight (TitleConfig.size tc) titleFontFamily) c in
    let mapleBold :=
      TitleConfig.bold (TitleConfig.effects tc)
      && (TitleConfig.font tc =? "Maple Mono CN") in
    let c :=
      if TitleConfig.italic (TitleConfig.effects tc) then
        let c := translate titlePosX titlePosY c in
        let c := transform 1 0 (- (2 # 10)) 1 0 0 c in
        let c :=
          if mapleBold then
            let c := set_strokeStyle (css (TitleConfig.color tc)) c in
            let c := set_lineWidth (TitleConfig.size tc * 2 * (1 # 100)) c in
            emit (fun ctx => strokeText ctx (TitleConfig.text tc) 0 0) c
          else c in
        emit (fun ctx => fillText ctx (TitleConfig.text tc) 0 0) c
      else
        let c :=
          if mapleBold then
            let c := set_strokeStyle (css (TitleConfig.color tc)) c in
            let c := set_lineWidth (TitleConfig.size tc * 2 * (1 # 100)) c in
            emit (fun ctx => strokeText ctx (TitleConfig.text tc) titlePosX titlePosY) c
          else c in
        emit (fun ctx => fillText ctx (TitleConfig.text tc) titlePosX titlePosY) c in
    restore c
  else c.

(** The watermark of [renderFrame]. *)
Definition renderFrame_watermarkPosX (c : Canvas)
  (watermarkTextWidth currentWatermarkX : Q) : TextAlign * Q :=
  if Qle_bool currentWatermarkX 0 then (alignLeft, 0)
  else if Qle_bool 100 currentWatermarkX then (alignRight, width c)
  else
    let minX := watermarkTextWidth / 2 in
    let maxX := width c - watermarkTextWidth / 2 in
    (alignCenter, minX + (maxX - minX) * (currentWatermarkX / 100)).

Definition renderFrame_watermarkPosY (c : Canvas)
  (watermarkTextHeight currentWatermarkY : Q) : Q :=
  let halfWatermarkHeight := watermarkTextHeight / 2 in
  if Qle_bool currentWatermarkY 0 then halfWatermarkHeight
  else if Qle_bool 100 currentWatermarkY then height c - halfWatermarkHeight
  else
    let minY := halfWatermarkHeight in
    let maxY := height c - halfWatermarkHeight in
    minY + (maxY - minY) * (currentWatermarkY / 100).

Definition renderFrame_watermark (props : Props)
  (currentWatermarkX currentWatermarkY : Q) (c : Canvas) : Canvas :=
  let wc := watermarkConfig props in
  if truthy (WatermarkConfig.text wc) then
    let watermarkOpacity := WatermarkConfig.opacity wc / 100 in
    let c := save c in
    let c := set_globalAlpha watermarkOpacity c in
    let c := set_fillStyle (css (WatermarkConfig.color wc)) c in
    let displayWatermarkText :=
      if WatermarkConfig.uppercase (WatermarkConfig.effects wc)
      then toUpperCase (WatermarkConfig.text wc)
      else WatermarkConfig.text wc in
    let watermarkFontFamily := getFontFamilyWithFallback (WatermarkConfig.font wc) in
    let watermarkFontWeight :=
      if WatermarkConfig.bold (WatermarkConfig.effects wc) then boldWeight else normal in
    let c := set_font
               (mkFont watermarkFontWeight (WatermarkConfig.size wc) watermarkFontFamily) c in
    let watermarkTextWidth := measureText (font (context c)) displayWatermarkText in
    let watermarkTextHeight := WatermarkConfig.size wc in
    let '(align, watermarkPosX) :=
      renderFrame_watermarkPosX c watermarkTextWidth currentWatermarkX in
    let c := set_textAlign align c in
    let c := set_textBaseline middle c in
    let watermarkPosY :=
      renderFrame_watermarkPosY c watermarkTextHeight currentWatermarkY in
    let c := set_font
               (mkFont watermarkFontWeight (WatermarkConfig.size wc) watermarkFontFamily) c in
    let mapleBold :=
      WatermarkConfig.bold (WatermarkConfig.effects wc)
      && (WatermarkConfig.font wc =? "Maple Mono CN") in
    let c :=
      if WatermarkConfig.italic (WatermarkConfig.effects wc) then
        let c := translate watermarkPosX watermarkPosY c in
        let c := transform 1 0 (- (2 # 10)) 1 0 0 c in
        let c :=
          if mapleBold then
            let c := set_strokeStyle (css (WatermarkConfig.color wc)) c in
            let c := set_lineWidth (WatermarkConfig.size wc * (1 # 100)) c in
            emit (fun ctx => strokeText ctx displayWatermarkText 0 0) c
          else c in
        emit (fun ctx => fillText ctx displayWatermarkText 0 0) c
      else
        let c :=
          if mapleBold then
            let c := set_strokeStyle (css (WatermarkConfig.color wc)) c in
            let c := set_lineWidth (WatermarkConfig.size wc * (1 # 100)) c in
            emit (fun ctx =>
              strokeText ctx displayWatermarkText watermarkPosX watermarkPosY) c
          else c in
        emit (fun ctx =>
          fillText ctx displayWatermarkText watermarkPosX watermarkPosY) c in
    restore c
  else c.

(** [renderFrame(currentTitleX, ..., currentIconY)] on the preview
    canvas [c]: white fill, background, icon, title, watermark. *)
Definition renderFrame (props : Props) (iconImageCache : option Image)
  (currentTitleX currentTitleY currentWatermarkX currentWatermarkY
   currentIconSize currentIconX currentIconY : Q) (c : Canvas)
  : Canvas * option Image :=
  let c := set_fillStyle (css "#ffffff") c in
  let c := emit (fun ctx => fillRect ctx 0 0 (width c) (height c)) c in
  let c := renderFrame_background props c in
  let '(c, cache) :=
    renderFrame_icon props iconImageCache currentIconSize currentIconX currentIconY c in
  let c := renderFrame_title props currentTitleX currentTitleY c in
  let c := renderFrame_watermark props currentWatermarkX currentWatermarkY c in
  (c, cache).

(** The frame [renderCurrentFrame] draws: [renderFrame] at the
    current values of the animation table. *)
Definition renderCurrentFrame (props : Props) (iconImageCache : option Image)
  (a : AnimationStates) (c : Canvas) : Canvas * option Image :=
  renderFrame props iconImageCache
    (value (titleX a)) (value (titleY a))
    (value (watermarkX a)) (value (watermarkY a))
    (value (iconSize a)) (value (iconX a)) (value (iconY a)) c.

(** *** [exportImage]

    [canvas] is the preview canvas, read for its width only;
    [exportCanvas] is the new canvas of the export size. *)

Definition exportImage_color (props : Props) (exportCanvas : Canvas) : Canvas :=
  let bg := backgroundConfig props in
  let opacity := BackgroundConfig.opacity bg / 100 in
  let color := BackgroundConfig.color bg in
  let r := parseInt16 (slice color 1 3) in
  let g := parseInt16 (slice color 3 5) in
  let b := parseInt16 (slice color 5 7) in
  let exportCanvas := set_fillStyle (css (rgbaTemplate r g b opacity)) exportCanvas in
  emit (fun ctx => fillRect ctx 0 0 (width exportCanvas) (height exportCanvas))
       exportCanvas.

Definition exportImage_gradient (props : Props) (exportCanvas : Canvas) : Canvas :=
  let bg := backgroundConfig props in
  let startColor := BackgroundConfig.startColor (BackgroundConfig.gradient bg) in
  let endColor := BackgroundConfig.endColor (BackgroundConfig.gradient bg) in
  let direction := BackgroundConfig.direction (BackgroundConfig.gradient bg) in
  let opacity := BackgroundConfig.opacity bg / 100 in
  let w := width exportCanvas in
  let h := height exportCanvas in
  let gradient :=
    match direction with
    | TO_RIGHT => createLinearGradient 0 0 w 0
    | TO_LEFT => createLinearGradient w 0 0 0
    | TO_BOTTOM => createLinearGradient 0 0 0 h
    | TO_TOP => createLinearGradient 0 h 0 0
    | TO_BOTTOM_RIGHT => createLinearGradient 0 0 w h
    | TO_BOTTOM_LEFT => createLinearGradient w 0 0 h
    | TO_TOP_RIGHT => createLinearGradient 0 h w 0
    | TO_TOP_LEFT => createLinearGradient w h 0 0
    | OTHER_DIRECTION => createLinearGradient 0 0 w h
    end in
  let startR := parseInt16 (slice startColor 1 3) in
  let startG := parseInt16 (slice startColor 3 5) in
  let startB := parseInt16 (slice startColor 5 7) in
  let endR := parseInt16 (slice endColor 1 3) in
  let endG := parseInt16 (slice endColor 3 5) in
  let endB := parseInt16 (slice endColor 5 7) in
  let gradient := addColorStop 0 (rgbaTemplate startR startG startB opacity) gradient in
  let gradient := addColorStop 1 (rgbaTemplate endR endG endB opacity) gradient in
  let exportCanvas := set_fillStyle (gradientStyle gradient) exportCanvas in
  emit (fun ctx => fillRect ctx 0 0 w h) exportCanvas.

Definition exportImage_image (props : Props) (img : Image) (exportCanvas : Canvas)
  : Canvas :=
  let bg := backgroundConfig props in
  let exportCanvas :=
    if Qltb 0 (BackgroundConfig.blur bg)
    then set_filter (filterBlur (BackgroundConfig.blur bg)) exportCanvas
    else set_filter filterNone exportCanvas in
  let imgRatio := imgWidth img / imgHeight img in
  let canvasRatio := width exportCanvas / height exportCanvas in
  let wider := Qltb canvasRatio imgRatio in
  let drawHeight := if wider then height exportCanvas else width exportCanvas / imgRatio in
  let drawWidth := if wider then height exportCanvas * imgRatio else width exportCanvas in
  let offsetX := if wider then (width exportCanvas - drawWidth) / 2 else 0 in
  let offsetY := if wider then 0 else (height exportCanvas - drawHeight) / 2 in
  let exportCanvas :=
    if negb offscreenContext then
      emit (fun ctx =>
        drawImage ctx (imageElement img) offsetX offsetY drawWidth drawHeight)
        exportCanvas
    else
      let exportCanvas := set_imageSmoothingEnabled true exportCanvas in
      let exportCanvas := set_imageSmoothingQuality "high" exportCanvas in
      emit (fun ctx =>
        drawImage ctx (offscreenCopy img) offsetX offsetY drawWidth drawHeight)
        exportCanvas in
  set_filter filterNone exportCanvas.

Definition exportImage_background (props : Props) (exportCanvas : Canvas) : Canvas :=
  match BackgroundConfig.type (backgroundConfig props) with
  | COLOR => exportImage_color props exportCanvas
  | GRADIENT => exportImage_gradient props exportCanvas
  | IMAGE =>
      match BackgroundConfig.imageObj (backgroundConfig props) with
      | Some img => exportImage_image props img exportCanvas
      | None => exportCanvas
      end
  end.

(** The icon of the export: size scaled by
    [exportCanvas.width / canvas.width], centre from the configured
    percents and the export canvas. *)
Definition exportImage_iconSize (props : Props) (canvas exportCanvas : Canvas) : Q :=
  IconConfig.size (iconConfig props) * (width exportCanvas / width canvas).

Definition exportImage_iconPosX (props : Props) (canvas exportCanvas : Canvas) : Q :=
  let iconSize := exportImage_iconSize props canvas exportCanvas in
  let halfIconSize := iconSize / 2 in
  let px := x (IconConfig.position (iconConfig props)) in
  if Qle_bool px 0 then halfIconSize
  else if Qle_bool 100 px then width exportCanvas - halfIconSize
  else
    let minX := halfIconSize in
    let maxX := width exportCanvas - halfIconSize in
    minX + (maxX - minX) * (px / 100).

Definition exportImage_iconPosY (props : Props) (canvas exportCanvas : Canvas) : Q :=
  let iconSize := exportImage_iconSize props canvas exportCanvas in
  let halfIconSize := iconSize / 2 in
  let py := y (IconConfig.position (iconConfig props)) in
  if Qle_bool py 0 then halfIconSize
  else if Qle_bool 100 py then height exportCanvas - halfIconSize
  else
    let minY := halfIconSize in
    let maxY := height exportCanvas - halfIconSize in
    minY + (maxY - minY) * (py / 100).

Definition exportImage_icon (props : Props) (canvas exportCanvas : Canvas) : Canvas :=
  let ic := iconConfig props in
  if truthy (IconConfig.svg ic) then
    let iconSize := exportImage_iconSize props canvas exportCanvas in
    let adjustedIconPosX := exportImage_iconPosX props canvas exportCanvas in
    let adjustedIconPosY := exportImage_iconPosY props canvas exportCanvas in
    match loadSvg (IconConfig.svg ic) with
    | Some img =>
        let exportCtx := exportCanvas in
        let exportCtx :=
          if Qltb 0 (IconConfig.shadowSize ic) then
            let exportCtx := set_shadowColor (IconConfig.shadowColor ic) exportCtx in
            let exportCtx :=
              set_shadowBlur
                (IconConfig.shadowSize ic * (width exportCanvas / width canvas))
                exportCtx in
            let exportCtx := set_shadowOffsetX 0 exportCtx in
            set_shadowOffsetY 0 exportCtx
          else exportCtx in
        let aspectRatio := imgWidth img / imgHeight img in
        let drawWidth := if Qltb 1 aspectRatio then iconSize else iconSize * aspectRatio in
        let drawHeight := if Qltb 1 aspectRatio then iconSize / aspectRatio else iconSize in
        let exportCtx :=
          emit (fun ctx =>
            drawImage ctx (imageElement img)
              (adjustedIconPosX - drawWidth / 2) (adjustedIconPosY - drawHeight / 2)
              drawWidth drawHeight) exportCtx in
        let exportCtx := set_shadowColor "transparent" exportCtx in
        let exportCtx := set_shadowBlur 0 exportCtx in
        let exportCtx := set_shadowOffsetX 0 exportCtx in
        set_shadowOffsetY 0 exportCtx
    | None => exportCanvas
    end
  else exportCanvas.

(** The title of the export. *)
Definition exportImage_titleSize (props : Props) (canvas exportCanvas : Canvas) : Q :=
  TitleConfig.size (titleConfig props) * (width exportCanvas / width canvas).

Definition exportImage_titlePosX (props : Props) (exportCanvas : Canvas) (textWidth : Q)
  : TextAlign * Q :=
  let px := x (TitleConfig.position (titleConfig props)) in
  if Qle_bool px 0 then (alignLeft, 0)
  else if Qle_bool 100 px then (alignRight, width exportCanvas)
  else
    let minX := textWidth / 2 in
    let maxX := width exportCanvas - textWidth / 2 in
    (alignCenter, minX + (maxX - minX) * (px / 100)).

Definition exportImage_titlePosY (props : Props) (exportCanvas : Canvas) (textHeight : Q)
  : Q :=
  let halfTextHeight := textHeight / 2 in
  let py := y (TitleConfig.position (titleConfig props)) in
  if Qle_bool py 0 then halfTextHeight
  else if Qle_bool 100 py then height exportCanvas - halfTextHeight
  else
    let minY := halfTextHeight in
    let maxY := height exportCanvas - halfTextHeight in
    minY + (maxY - minY) * (py / 100).

Definition exportImage_title (props : Props) (canvas exportCanvas : Canvas) : Canvas :=
  let tc := titleConfig props in
  if truthy (TitleConfig.text tc) then
    let titleSize := exportImage_titleSize props canvas exportCanvas in
    let exportCtx := set_fillStyle (css (TitleConfig.color tc)) exportCanvas in
    let exportFontFamily := getFontFamilyWithFallback (TitleConfig.font tc) in
    let exportTitleFontWeight :=
      if TitleConfig.bold (TitleConfig.effects tc) then boldWeight else normal in
    let exportCtx :=
      set_font (mkFont exportTitleFontWeight titleSize exportFontFamily) exportCtx in
    let textWidth := measureText (font (context exportCtx)) (TitleConfig.text tc) in
    let textHeight := titleSize in
    let '(align, adjustedTitlePosX) :=
      exportImage_titlePosX props exportCanvas textWidth in
    let exportCtx := set_textAlign align exportCtx in
    let exportCtx := set_textBaseline middle exportCtx in
    let adjustedTitlePosY := exportImage_titlePosY props exportCanvas textHeight in
    let exportCtx :=
      set_font (mkFont exportTitleFontWeight titleSize exportFontFamily) exportCtx in
    let exportCtx := save exportCtx in
    let exportCtx :=
      if Qltb 0 (TitleConfig.textShadow (TitleConfig.effects tc)) then
        let shadowSize :=
          TitleConfig.textShadow (TitleConfig.effects tc)
          * (width exportCanvas / width canvas) in
        let shadowColor := TitleConfig.color tc in
        let exportCtx := set_shadowColor shadowColor exportCtx in
        let exportCtx := set_shadowBlur (shadowSize * 2) exportCtx in
        let exportCtx := set_shadowOffsetX shadowSize exportCtx in
        set_shadowOffsetY shadowSize exportCtx
      else exportCtx in
    let mapleBold :=
      TitleConfig.bold (TitleConfig.effects tc)
      && (TitleConfig.font tc =? "Maple Mono CN") in
    let exportCtx :=
      if TitleConfig.italic (TitleConfig.effects tc) then
        let exportCtx := translate adjustedTitlePosX adjustedTitlePosY exportCtx in
        let exportCtx := transform 1 0 (- (2 # 10)) 1 0 0 exportCtx in
        let exportCtx :=
          if mapleBold then
            let exportCtx := set_strokeStyle (css (TitleConfig.color tc)) exportCtx in
            let exportCtx := set_lineWidth (titleSize * (1 # 100)) exportCtx in
            emit (fun ctx => strokeText ctx (TitleConfig.text tc) 0 0) exportCtx
          else exportCtx in
        emit (fun ctx => fillText ctx (TitleConfig.text tc) 0 0) exportCtx
      else
        let exportCtx :=
          if mapleBold then
            let exportCtx := set_strokeStyle (css (TitleConfig.color tc)) exportCtx in
            let exportCtx := set_lineWidth (titleSize * (1 # 100)) exportCtx in
            emit (fun ctx =>
              strokeText ctx (TitleConfig.text tc) adjustedTitlePosX adjustedTitlePosY)
              exportCtx
          else exportCtx in
        emit (fun ctx =>
          fillText ctx (TitleConfig.text tc) adjustedTitlePosX adjustedTitlePosY)
          exportCtx in
    restore exportCtx
  else exportCanvas.

(** The watermark of the export. *)
Definition exportImage_watermarkSize (props : Props) (canvas exportCanvas : Canvas) : Q :=
  WatermarkConfig.size (watermarkConfig props) * (width exportCanvas / width canvas).

Definition exportImage_watermarkPosX (props : Props) (exportCanvas : Canvas)
  (watermarkTextWidth : Q) : TextAlign * Q :=
  let px := x (WatermarkConfig.position (watermarkConfig props)) in
  if Qle_bool px 0 then (alignLeft, 0)
  else if Qle_bool 100 px then (alignRight, width exportCanvas)
  else
    let minX := watermarkTextWidth / 2 in
    let maxX := width exportCanvas - watermarkTextWidth / 2 in
    (alignCenter, minX + (maxX - minX) * (px / 100)).

Definition exportImage_watermarkPosY (props : Props) (exportCanvas : Canvas)
  (watermarkTextHeight : Q) : Q :=
  let halfWatermarkHeight := watermarkTextHeight / 2 in
  let py := y (WatermarkConfig.position (watermarkConfig props)) in
  if Qle_bool py 0 then halfWatermarkHeight
  else if Qle_bool 100 py then height exportCanvas - halfWatermarkHeight
  else
    let minY := halfWatermarkHeight in
    let maxY := height exportCanvas - halfWatermarkHeight in
    minY + (maxY - minY) * (py / 100).

Definition exportImage_watermark (props : Props) (canvas exportCanvas : Canvas)
  : Canvas :=
  let wc := watermarkConfig props in
  if truthy (WatermarkConfig.text wc) then
    let watermarkSize := exportImage_watermarkSize props canvas exportCanvas in
    let watermarkOpacity := WatermarkConfig.opacity wc / 100 in
    let exportCtx := save exportCanvas in
    let exportCtx := set_globalAlpha watermarkOpacity exportCtx in
    let exportCtx := set_fillStyle (css (WatermarkConfig.color wc)) exportCtx in
    let exportDisplayWatermarkText :=
      if WatermarkConfig.uppercase (WatermarkConfig.effects wc)
      then toUpperCase (WatermarkConfig.text wc)
      else WatermarkConfig.text wc in
    let exportWatermarkFontFamily :=
      getFontFamilyWithFallback (WatermarkConfig.font wc) in
    let exportWatermarkFontWeight :=
      if WatermarkConfig.bold (WatermarkConfig.effects wc) then boldWeight else normal in
    let exportCtx :=
      set_font (mkFont exportWatermarkFontWeight watermarkSize exportWatermarkFontFamily)
               exportCtx in
    let watermarkTextWidth :=
      measureText (font (context exportCtx)) exportDisplayWatermarkText in
    let watermarkTextHeight := watermarkSize in
    let '(align, adjustedWatermarkPosX) :=
      exportImage_watermarkPosX props exportCanvas watermarkTextWidth in
    let exportCtx := set_textAlign align exportCtx in
    let exportCtx := set_textBaseline middle exportCtx in
    let adjustedWatermarkPosY :=
      exportImage_watermarkPosY props exportCanvas watermarkTextHeight in
    let exportCtx :=
      set_font (mkFont exportWatermarkFontWeight watermarkSize exportWatermarkFontFamily)
               exportCtx in
    let mapleBold :=
      WatermarkConfig.bold (WatermarkConfig.effects wc)
      && (WatermarkConfig.font wc =? "Maple Mono CN") in
    let exportCtx :=
      if WatermarkConfig.italic (WatermarkConfig.effects wc) then
        let exportCtx :=
          translate adjustedWatermarkPosX adjustedWatermarkPosY exportCtx in
        let exportCtx := transform 1 0 (- (2 # 10)) 1 0 0 exportCtx in
        let exportCtx :=
          if mapleBold then
            let exportCtx := set_strokeStyle (css (WatermarkConfig.color wc)) exportCtx in
            let exportCtx := set_lineWidth (watermarkSize * (1 # 100)) exportCtx in
            emit (fun ctx => strokeText ctx exportDisplayWatermarkText 0 0) exportCtx
          else exportCtx in
        emit (fun ctx => fillText ctx exportDisplayWatermarkText 0 0) exportCtx
      else
        let exportCtx :=
          if mapleBold then
            let exportCtx := set_strokeStyle (css (WatermarkConfig.color wc)) exportCtx in
            let exportCtx := set_lineWidth (watermarkSize * (1 # 100)) exportCtx in
            emit (fun ctx =>
              strokeText ctx exportDisplayWatermarkText
                adjustedWatermarkPosX adjustedWatermarkPosY) exportCtx
          else exportCtx in
        emit (fun ctx =>
          fillText ctx exportDisplayWatermarkText
            adjustedWatermarkPosX adjustedWatermarkPosY) exportCtx in
    restore exportCtx
  else exportCanvas.

(** [getFinalFileName()] and [outputFileName]. *)
Definition getFinalFileName (exportConfig : ExportConfig.t) : string :=
  match ExportConfig.useRandomFileName exportConfig,
        ExportConfig.currentRandomFileName exportConfig with
  | true, Some name =>
      if truthy name then name else ExportConfig.fileName exportConfig
  | _, _ => ExportConfig.fileName exportConfig
  end.

Definition outputFileName (exportConfig : ExportConfig.t) : string :=
  getFinalFileName exportConfig ++ "." ++ ExportConfig.format exportConfig.

(** What [exportImage] hands to the save dialog or to the download
    link: the canvas drawn, the file name, and the arguments of
    [toDataURL]. *)
Record Exported : Type := mkExported {
  exportedCanvas : Canvas;
  exportedName : string;
  exportedMime : string;
  exportedQuality : Q
}.

(** [exportImage(exportConfig)], up to the encoding of the canvas. *)
Definition exportImage (props : Props) (canvas : Canvas)
  (exportConfig : ExportConfig.t) : Exported :=
  let exportCanvas :=
    newCanvas (ExportConfig.width exportConfig) (ExportConfig.height exportConfig) in
  let exportCtx := set_fillStyle (css "#ffffff") exportCanvas in
  let exportCtx :=
    emit (fun ctx => fillRect ctx 0 0 (width exportCanvas) (height exportCanvas))
         exportCtx in
  let exportCtx := exportImage_background props exportCtx in
  let exportCtx := exportImage_icon props canvas exportCtx in
  let exportCtx := exportImage_title props canvas exportCtx in
  let exportCtx := exportImage_watermark props canvas exportCtx in
  {| exportedCanvas := exportCtx;
     exportedName := outputFileName exportConfig;
     exportedMime := "image/" ++ ExportConfig.format exportConfig;
     exportedQuality := ExportConfig.quality exportConfig |}.

End Rendering.


(** ** Notions the statements below use *)

(** The rate of the spring over one step: [state -> (target - value,
    velocity)] is linear, and the quadratic form [energy dt] of the
    pair shrinks by [1 - 20 dt] at every step that does not settle. *)
Definition energy (dt : Q) (state : AnimationState) : Q :=
  let d := target state - value state in
  let v := velocity state in
  200 * (d * d) - 20 * (1 - 10 * dt) * (d * v) + (1 - 20 * dt) * (v * v).

(** The abscissa of the middle of a text of width [w] drawn at anchor
    [px] with the given [textAlign] (left-to-right text). *)
Definition textCentreX (align : TextAlign) (px w : Q) : Q :=
  match align with
  | alignStart | alignLeft => px + w / 2
  | alignCenter => px
  | alignRight => px - w / 2
  end.

(** The layout policy, in the words of the specification: a resolved
    coordinate [r] for percent [p], container extent [extent] and
    content extent [content]. *)
Definition startRule (p content r : Q) : Prop :=
  p <= 0 -> r == content / 2.

Definition endRule (p extent content r : Q) : Prop :=
  100 <= p -> r == extent - content / 2.

Definition interpolationRule (p extent content r : Q) : Prop :=
  0 < p -> p < 100 ->
  r == content / 2 + ((extent - content / 2) - content / 2) * (p / 100).

Definition centreRule (p extent r : Q) : Prop :=
  p == 50 -> r == extent / 2.

(** The policy at the edges and at the centre, and the whole policy. *)
Definition centredLayout (p extent content r : Q) : Prop :=
  startRule p content r /\ endRule p extent content r /\ centreRule p extent r.

Definition zoneLayout (p extent content r : Q) : Prop :=
  startRule p content r /\ endRule p extent content r
  /\ interpolationRule p extent content r.

(** What the texts get on the horizontal axis: an anchor and a
    [textAlign]; flush left at 0 and flush right at the far edge. *)
Definition anchoredLayout (p extent : Q) (a : TextAlign * Q) : Prop :=
  (p <= 0 -> a = (alignLeft, 0))
  /\ (100 <= p -> a = (alignRight, extent))
  /\ (p == 50 -> fst a = alignCenter /\ snd a == extent / 2).

(** The rules on what is drawn.  A text anchored at [tx] with
    [textAlign] [align]: flush left at 0, flush right at the far edge,
    centred at the middle, up to [==]. *)
Definition anchoredAt (p extent : Q) (align : TextAlign) (tx : Q) : Prop :=
  (p <= 0 -> align = alignLeft /\ tx == 0)
  /\ (100 <= p -> align = alignRight /\ tx == extent)
  /\ (p == 50 -> align = alignCenter /\ tx == extent / 2).

(** An icon of size [size] centred at [(px, py)], for the percents [p]
    and [q] of the two axes. *)
Definition iconPlaced (p q extentX extentY size px py : Q) : Prop :=
  centredLayout p extentX size px /\ centredLayout q extentY size py.

(** A text of measured width [w] and font size [h] drawn at [(tx, ty)]
    with [textAlign] [align]. *)
Definition textPlaced (p q extentX extentY w h : Q) (align : TextAlign) (tx ty : Q)
  : Prop :=
  anchoredAt p extentX align tx
  /\ centredLayout p extentX w (textCentreX align tx w)
  /\ centredLayout q extentY h ty.

(** The [lineWidth] of every [strokeText] call of a list of calls. *)
Fixpoint strokeWidths (l : list DrawCall) : list Q :=
  match l with
  | [] => []
  | strokeText ctx _ _ _ :: rest => lineWidth ctx :: strokeWidths rest
  | _ :: rest => strokeWidths rest
  end.

(** The linear size quantities a call was drawn with: the drawn width
    and height of an image and the blur of its shadow; the font size,
    the blur and the two offsets of the shadow of a text and, for a
    stroked text, the width of the stroke. *)
Definition sizeQuantities (call : DrawCall) : list Q :=
  match call with
  | fillRect _ _ _ _ _ => []
  | drawImage ctx _ _ _ dw dh => [dw; dh; shadowBlur ctx]
  | strokeText ctx _ _ _ =>
      [fontSize (font ctx); shadowBlur ctx; shadowOffsetX ctx; shadowOffsetY ctx;
       lineWidth ctx]
  | fillText ctx _ _ _ =>
      [fontSize (font ctx); shadowBlur ctx; shadowOffsetX ctx; shadowOffsetY ctx]
  end.

(** The colour string [#] followed by six characters. *)
Definition hexColor (c1 c2 c3 c4 c5 c6 : ascii) : string :=
  String "#" (String c1 (String c2 (String c3 (String c4 (String c5 (String c6
    EmptyString)))))).

(** What a list of calls draws, by kind of call.  A rectangle: its
    fill style and its origin and size.  An image: its source, the
    origin and the size of the box it is drawn into.  A filled text:
    the text, the [textAlign] and the point it is drawn at, carried
    through the current transformation. *)
Definition devicePoint (m : Matrix) (px py : Q) : Q * Q :=
  (ma m * px + mc m * py + me m, mb m * px + md m * py + mf m).

Fixpoint fillRects (l : list DrawCall) : list (Style * (Q * Q) * (Q * Q)) :=
  match l with
  | [] => []
  | fillRect ctx rx ry rw rh :: rest =>
      (fillStyle ctx, (rx, ry), (rw, rh)) :: fillRects rest
  | _ :: rest => fillRects rest
  end.

Fixpoint imageDraws (l : list DrawCall) : list (ImageSource * (Q * Q) * (Q * Q)) :=
  match l with
  | [] => []
  | drawImage ctx src dx dy dw dh :: rest =>
      (src, (dx, dy), (dw, dh)) :: imageDraws rest
  | _ :: rest => imageDraws rest
  end.

Fixpoint fillTexts (l : list DrawCall) : list (string * TextAlign * (Q * Q)) :=
  match l with
  | [] => []
  | fillText ctx txt tx ty :: rest =>
      (txt, textAlign ctx, devicePoint (currentTransform ctx) tx ty) :: fillTexts rest
  | _ :: rest => fillTexts rest
  end.

(** The image [drawIcon] draws: the cached one, else the one the
    source loads to. *)
Definition iconImage (loadSvg : string -> option Image) (props : Props)
  (iconImageCache : option Image) : option Image :=
  match iconImageCache with
  | Some img => Some img
  | None => loadSvg (IconConfig.svg (iconConfig props))
  end.

(** The canvas [exportImage] creates. *)
Definition exportCanvasOf (exportConfig : ExportConfig.t) : Canvas :=
  newCanvas (ExportConfig.width exportConfig) (ExportConfig.height exportConfig).

(** The first step of both passes: the canvas filled with white. *)
Definition whiteFilled (c : Canvas) : Canvas :=
  emit (fun ctx => fillRect ctx 0 0 (width c) (height c))
       (set_fillStyle (css "#ffffff") c).

(** The fonts the title and the watermark are measured and drawn in,
    at a given size in pixels. *)
Definition titleFont (props : Props) (size : Q) : Font :=
  mkFont (if TitleConfig.bold (TitleConfig.effects (titleConfig props))
          then boldWeight else normal)
         size (getFontFamilyWithFallback (TitleConfig.font (titleConfig props))).

Definition watermarkFont (props : Props) (size : Q) : Font :=
  mkFont (if WatermarkConfig.bold (WatermarkConfig.effects (watermarkConfig props))
          then boldWeight else normal)
         size (getFontFamilyWithFallback (WatermarkConfig.font (watermarkConfig props))).

(** The text of the watermark as drawn. *)
Definition watermarkDisplayText (props : Props) : string :=
  if WatermarkConfig.uppercase (WatermarkConfig.effects (watermarkConfig props))
  then toUpperCase (WatermarkConfig.text (watermarkConfig props))
  else WatermarkConfig.text (watermarkConfig props).

(** ** The spring and the interpolation in binary64

    The same source lines once more, on the numbers the language
    computes with. *)

Module Double.

#[local] Set Warnings "-inexact-float".
#[local] Open Scope float_scope.

Record AnimationState : Type := mkAnimationState {
  value : float;
  target : float;
  velocity : float
}.

Definition SPRING_STIFFNESS : float := 200.
Definition SPRING_DAMPING : float := 20.
Definition SPRING_MASS : float := 1.
Definition SPRING_PRECISION : float := 0.01.

(** [updateSpringAnimation(state, dt)]. *)
Definition updateSpringAnimation (state : AnimationState) (dt : float)
  : AnimationState * bool :=
  let displacement := target state - value state in
  if (abs displacement <? SPRING_PRECISION)
     && (abs (velocity state) <? SPRING_PRECISION)
  then
    ({| value := target state; target := target state; velocity := 0 |},
     false)
  else
    let springForce := SPRING_STIFFNESS * displacement in
    let dampingForce := - SPRING_DAMPING * velocity state in
    let force := springForce + dampingForce in
    let acceleration := force / SPRING_MASS in
    let velocity' := velocity state + acceleration * dt in
    let value' := value state + velocity' * dt in
    ({| value := value'; target := target state; velocity := velocity' |},
     true).

Definition tick (dt : float) (state : AnimationState) : AnimationState :=
  fst (updateSpringAnimation state dt).

Fixpoint ticks (n : nat) (dt : float) (state : AnimationState)
  : AnimationState :=
  match n with
  | O => state
  | S n' => ticks n' dt (tick dt state)
  end.

(** The number of ticks before the first one that reports settled,
    looked for among the first [fuel] ticks. *)
Fixpoint settleTime (fuel : nat) (dt : float) (state : AnimationState)
  : option nat :=
  match fuel with
  | O => None
  | S fuel' =>
      if snd (updateSpringAnimation state dt)
      then option_map S (settleTime fuel' dt (tick dt state))
      else Some O
  end.

(** The interpolation block of the icon on the horizontal axis
    (lines 572-589), on a canvas of width [canvasWidth]. *)
Definition renderFrame_iconPosX (canvasWidth currentIconSize currentIconX : float)
  : float :=
  let iconSize := currentIconSize in
  let halfIconSize := iconSize / 2 in
  if currentIconX <=? 0 then halfIconSize
  else if 100 <=? currentIconX then canvasWidth - halfIconSize
  else
    let minX := halfIconSize in
    let maxX := canvasWidth - halfIconSize in
    minX + (maxX - minX) * (currentIconX / 100).

(** An integer as a number. *)
Fixpoint ofPositive (p : positive) : float :=
  match p with
  | xH => 1
  | xO q => 2 * ofPositive q
  | xI q => 2 * ofPositive q + 1
  end.

Definition ofZ (z : Z) : float :=
  match z with
  | Z0 => 0
  | Zpos p => ofPositive p
  | Zneg p => - ofPositive p
  end.

(** A state at rest at the integer [from], aimed at the integer [to]. *)
Definition fromTo (from to : Z) : AnimationState :=
  {| value := ofZ from; target := ofZ to; velocity := 0 |}.

(** Every pair of integers of [0 .. bound] settles within [fuel] ticks
    of [dt]. *)
Definition settlesOnGrid (bound fuel : nat) (dt : float) : bool :=
  forallb
    (fun from =>
       forallb
         (fun to =>
            match settleTime fuel dt (fromTo (Z.of_nat from) (Z.of_nat to)) with
            | Some _ => true
            | None => false
            end)
         (seq 0 (S bound)))
    (seq 0 (S bound)).

End Double.

(** The state a settled tick leaves: at its target, without velocity. *)
Definition settle (s : AnimationState) : AnimationState :=
  {| value := target s; target := target s; velocity := 0 |}.

(** Every state of the table passes the test of the early return. *)
Definition allAtRest (a : AnimationStates) : bool :=
  forallb atRest (stateList a).

(** The values [updateAnimationTargets] reads from the configuration,
    in the key order of the table. *)
Definition configuredTargets (props : Props) : list Q :=
  let tc := titleConfig props in
  let wc := watermarkConfig props in
  let ic := iconConfig props in
  [TitleConfig.size tc; x (TitleConfig.position tc); y (TitleConfig.position tc);
   WatermarkConfig.size wc; x (WatermarkConfig.position wc);
   y (WatermarkConfig.position wc);
   IconConfig.size ic; x (IconConfig.position ic); y (IconConfig.position ic);
   WatermarkConfig.opacity wc; BackgroundConfig.blur (backgroundConfig props)].

(** ** Sample configurations *)

Definition sampleBackground : BackgroundConfig.t :=
  BackgroundConfig.mk COLOR "#FF0000"
    (BackgroundConfig.mkGradient "#000000" "#ffffff" TO_RIGHT) None 50 0.

Definition sampleTitle (size : Q) : TitleConfig.t :=
  TitleConfig.mk "Hello" "#ffffff" "Maple Mono CN" size (mkPosition 50 50)
    (TitleConfig.mkEffects true false 4).

Definition sampleWatermark : WatermarkConfig.t :=
  WatermarkConfig.mk "draft" "#ffffff" "Maple Mono CN" 30 (mkPosition 100 100) 80
    (WatermarkConfig.mkEffects true false true).

Definition sampleIcon (px : Q) : IconConfig.t :=
  IconConfig.mk "<svg/>" 200 (mkPosition px 30) "#000000" 8.

(** A configuration with the given title size and icon abscissa. *)
Definition sampleProps (size iconPx : Q) : Props :=
  mkProps sampleBackground (sampleIcon iconPx) (sampleTitle size) sampleWatermark.

Definition sampleExport : ExportConfig.t :=
  ExportConfig.mk 3840 2160 "png" 1 "cover" false None.

(** A stand-in for the browser: six tenths of the font size per
    character, and a square 24 by 24 image for every SVG source. *)
Definition sampleMeasureText (f : Font) (s : string) : Q :=
  fontSize f * inject_Z (Z.of_nat (String.length s)) * (6 # 10).

Definition sampleLoadSvg (s : string) : option Image := Some (mkImage 24 24).

(** The digits of [r / d] after the decimal point ([0 <= r < d]), by
    long division, at most [fuel] of them. *)
Fixpoint fractionDigits (fuel : nat) (r d : Z) : string :=
  match fuel with
  | O => EmptyString
  | S fuel' =>
      if (r =? 0)%Z then EmptyString
      else
        let r10 := (10 * r)%Z in
        intToString (r10 / d) ++ fractionDigits fuel' (r10 mod d) d
  end.

(** A stand-in for the conversion of a number to a string: the exact
    decimal expansion, cut after 17 fractional digits.  It prints
    [50/100] as [0.5], as the language does; it is not the language's
    conversion in general. *)
Definition sampleNumberToString (q : Q) : string :=
  let n := Qnum q in
  let d := Zpos (Qden q) in
  let a := Z.abs n in
  let frac := fractionDigits 17 (a mod d) d in
  (if (n <? 0)%Z then "-" else "")
  ++ intToString (a / d)
  ++ (if truthy frac then "." ++ frac else "").

(** * Properties *)

(** ** Arithmetic helpers *)

Lemma Qltb_lt (a b : Q) : Qltb a b = true <-> a < b.
Proof.
  unfold Qltb. rewrite negb_true_iff. split.
  - intros H. apply Qnot_le_lt. intros Hle.
    apply Qle_bool_iff in Hle. congruence.
  - intros H. destruct (Qle_bool b a) eqn:E; [|reflexivity].
    apply Qle_bool_iff in E. exfalso. apply (Qlt_not_le _ _ H E).
Qed.

Lemma Qltb_ge (a b : Q) : Qltb a b = false <-> b <= a.
Proof.
  unfold Qltb. rewrite negb_false_iff. apply Qle_bool_iff.
Qed.

Lemma Qle_bool_false (a b : Q) : Qle_bool a b = false <-> b < a.
Proof.
  split.
  - intros H. apply Qnot_le_lt. intros Hle.
    apply Qle_bool_iff in Hle. congruence.
  - intros H. destruct (Qle_bool a b) eqn:E; [|reflexivity].
    apply Qle_bool_iff in E. exfalso. apply (Qlt_not_le _ _ H E).
Qed.

Lemma atRest_iff (state : AnimationState) :
  atRest state = true <->
  Qabs (target state - value state) < SPRING_PRECISION
  /\ Qabs (velocity state) < SPRING_PRECISION.
Proof.
  unfold atRest. rewrite andb_true_iff, !Qltb_lt. reflexivity.
Qed.

Lemma atRest_false_iff (state : AnimationState) :
  atRest state = false <->
  SPRING_PRECISION <= Qabs (target state - value state)
  \/ SPRING_PRECISION <= Qabs (velocity state).
Proof.
  unfold atRest. rewrite andb_false_iff, !Qltb_ge. reflexivity.
Qed.

(** The two branches of [updateSpringAnimation]. *)
Lemma update_at_rest (state : AnimationState) (dt : Q) :
  atRest state = true ->
  updateSpringAnimation state dt =
  ({| value := target state; target := target state; velocity := 0 |}, false).
Proof.
  unfold updateSpringAnimation, atRest. intros ->. reflexivity.
Qed.

Lemma update_active (state : AnimationState) (dt : Q) :
  atRest state = false ->
  updateSpringAnimation state dt =
  (let v' := velocity state
             + (SPRING_STIFFNESS * (target state - value state)
                + - SPRING_DAMPING * velocity state) / SPRING_MASS * dt in
   {| value := value state + v' * dt; target := target state; velocity := v' |},
   true).
Proof.
  unfold updateSpringAnimation, atRest. intros ->. reflexivity.
Qed.

Lemma settled_atRest (t : Q) :
  atRest {| value := t; target := t; velocity := 0 |} = true.
Proof.
  apply atRest_iff. unfold SPRING_PRECISION. cbn [target value velocity].
  split; apply Qabs_Qlt_condition; split; lra.
Qed.

(** ** The spring animator *)

Lemma tick_at_rest (dt : Q) (state : AnimationState) :
  atRest state = true ->
  tick dt state = {| value := target state; target := target state; velocity := 0 |}.
Proof.
  intros H. unfold tick. rewrite (update_at_rest _ _ H). reflexivity.
Qed.

Lemma tick_target (dt : Q) (state : AnimationState) :
  target (tick dt state) = target state.
Proof.
  unfold tick, updateSpringAnimation.
  destruct (_ && _); reflexivity.
Qed.

Lemma ticks_target (n : nat) (dt : Q) (state : AnimationState) :
  target (ticks n dt state) = target state.
Proof.
  revert state. induction n as [|n IH]; intros state; cbn [ticks].
  - reflexivity.
  - rewrite IH. apply tick_target.
Qed.

Lemma ticks_settled (n : nat) (dt t : Q) :
  ticks n dt {| value := t; target := t; velocity := 0 |}
  = {| value := t; target := t; velocity := 0 |}.
Proof.
  induction n as [|n IH]; cbn [ticks].
  - reflexivity.
  - rewrite (tick_at_rest _ _ (settled_atRest t)). exact IH.
Qed.

Lemma ticks_succ_r (n : nat) (dt : Q) (state : AnimationState) :
  ticks (S n) dt state = tick dt (ticks n dt state).
Proof.
  revert state. induction n as [|n IH]; intros state.
  - reflexivity.
  - change (ticks (S (S n)) dt state) with (ticks (S n) dt (tick dt state)).
    rewrite IH. reflexivity.
Qed.

Lemma ticks_add (n m : nat) (dt : Q) (state : AnimationState) :
  ticks (n + m) dt state = ticks m dt (ticks n dt state).
Proof.
  revert state. induction n as [|n IH]; intros state; cbn [ticks Nat.add].
  - reflexivity.
  - apply IH.
Qed.

Lemma deltaTime_le (currentTime lastTime : Q) :
  deltaTime currentTime lastTime <= 1 # 10.
Proof. unfold deltaTime. apply Q.le_min_r. Qed.

(** One step that does not settle multiplies the energy by [1 - 20 dt]. *)
Lemma energy_tick (dt : Q) (state : AnimationState) :
  atRest state = false ->
  energy dt (tick dt state) == (1 - 20 * dt) * energy dt state.
Proof.
  intros R. unfold tick. rewrite (update_active _ dt R).
  unfold energy, SPRING_STIFFNESS, SPRING_DAMPING, SPRING_MASS.
  cbn [fst value velocity target]. field.
Qed.

Lemma square_nonneg (a : Q) : 0 <= a * a.
Proof. nra. Qed.

Lemma square_small (a : Q) : a * a < 1 # 10000 -> Qabs a < 1 # 100.
Proof.
  intros H. apply Qabs_Qlt_condition. split.
  - apply Qnot_le_lt. intros Hle. 
    assert ((1#10000) <= a * a) by nra. lra.
  - apply Qnot_le_lt. intros Hle. 
    assert ((1#10000) <= a * a) by nra. lra.
Qed.

Lemma energy_bounds_displacement (dt : Q) (state : AnimationState) :
  0 < dt -> dt <= 1 # 25 ->
  20 * ((target state - value state) * (target state - value state)) <= energy dt state.
Proof.
  intros H0 H1. unfold energy. cbn zeta.
  set (d := target state - value state). set (v := velocity state).
  assert (E : 200 * (d * d) - 20 * (1 - 10 * dt) * (d * v) + (1 - 20 * dt) * (v * v)
              - 20 * (d * d)
              == 180 * ((d - (1 - 10 * dt) * v / 18) * (d - (1 - 10 * dt) * v / 18))
                 + (4 # 9) * ((1 - 25 * dt) * (1 + 5 * dt)) * (v * v)) by field.
  assert (S1 : 0 <= (d - (1 - 10 * dt) * v / 18) * (d - (1 - 10 * dt) * v / 18))
    by apply square_nonneg.
  assert (S2 : 0 <= v * v) by apply square_nonneg.
  assert (S3 : 0 <= (1 - 25 * dt) * (1 + 5 * dt)) by nra.
  assert (S4 : 0 <= ((1 - 25 * dt) * (1 + 5 * dt)) * (v * v)) by (apply Qmult_le_0_compat; assumption).
  lra.
Qed.

Lemma energy_bounds_velocity (dt : Q) (state : AnimationState) :
  0 < dt -> dt <= 1 # 25 ->
  (1 # 50) * (velocity state * velocity state) <= energy dt state.
Proof.
  intros H0 H1. unfold energy. cbn zeta.
  set (d := target state - value state). set (v := velocity state).
  assert (E : 200 * (d * d) - 20 * (1 - 10 * dt) * (d * v) + (1 - 20 * dt) * (v * v)
              - (1 # 50) * (v * v)
              == 200 * ((d - (1 - 10 * dt) * v / 20) * (d - (1 - 10 * dt) * v / 20))
                 + (1 # 25) * ((1 - 25 * dt) * (12 + 50 * dt)) * (v * v)) by field.
  assert (S1 : 0 <= (d - (1 - 10 * dt) * v / 20) * (d - (1 - 10 * dt) * v / 20))
    by apply square_nonneg.
  assert (S2 : 0 <= v * v) by apply square_nonneg.
  assert (S3 : 0 <= (1 - 25 * dt) * (12 + 50 * dt)) by nra.
  assert (S4 : 0 <= ((1 - 25 * dt) * (12 + 50 * dt)) * (v * v)) by (apply Qmult_le_0_compat; assumption).
  lra.
Qed.

Lemma low_energy_atRest (dt : Q) (state : AnimationState) :
  0 < dt -> dt <= 1 # 25 ->
  energy dt state < 1 # 500000 -> atRest state = true.
Proof.
  intros H0 H1 He. apply atRest_iff. unfold SPRING_PRECISION.
  pose proof (energy_bounds_displacement dt state H0 H1) as Bd.
  pose proof (energy_bounds_velocity dt state H0 H1) as Bv.
  split; apply square_small; lra.
Qed.

(** The budget of steps: energy below [(1 + 20 dt n) / 500000] is at
    rest after at most [n] steps. *)
Lemma rest_within (dt : Q) (n : nat) :
  0 < dt -> dt <= 1 # 25 ->
  forall state,
    energy dt state < (1 # 500000) * (1 + 20 * dt * inject_Z (Z.of_nat n)) ->
    exists k, (k <= n)%nat /\ atRest (ticks k dt state) = true.
Proof.
  intros H0 H1. induction n as [|n IH]; intros state He.
  - exists 0%nat. split; [lia|]. cbn [ticks].
    apply (low_energy_atRest dt state H0 H1).
    change (inject_Z (Z.of_nat 0)) with 0 in He. lra.
  - destruct (atRest state) eqn:R.
    + exists 0%nat. split; [lia|]. exact R.
    + destruct (IH (tick dt state)) as (k & Hk & Hr).
      * rewrite (energy_tick dt state R).
        rewrite Nat2Z.inj_succ, <- Z.add_1_r, inject_Z_plus in He.
        change (inject_Z 1) with 1 in He.
        set (m := inject_Z (Z.of_nat n)) in *.
        assert (Hm : 0 <= m).
        { unfold m. change 0 with (inject_Z 0). rewrite <- Zle_Qle. lia. }
        set (e := energy dt state) in *.
        assert (He0 : 0 <= e).
        { pose proof (energy_bounds_velocity dt state H0 H1).
          assert (0 <= velocity state * velocity state) by apply square_nonneg. unfold e. lra. }
        nra.
      * exists (S k). split; [lia|]. exact Hr.
Qed.

Lemma steps_for (dt e : Q) :
  0 < dt -> exists n : nat, e < (1 # 500000) * (1 + 20 * dt * inject_Z (Z.of_nat n)).
Proof.
  intros H0.
  set (b := (500000 * e - 1) / (20 * dt)).
  exists (Z.to_nat (Z.max 0 (Qfloor b + 1))).
  rewrite Z2Nat.id by apply Z.le_max_l.
  assert (Hb : b < inject_Z (Z.max 0 (Qfloor b + 1))).
  { apply Qlt_le_trans with (inject_Z (Qfloor b + 1)).
    - apply Qlt_floor.
    - rewrite <- Zle_Qle. apply Z.le_max_r. }
  set (m := inject_Z (Z.max 0 (Qfloor b + 1))) in *.
  assert (E : 500000 * e - 1 == b * (20 * dt)).
  { unfold b. field. lra. }
  assert (b * (20 * dt) < m * (20 * dt)).
  { apply Qmult_lt_compat_r; lra. }
  lra.
Qed.

(** C5.  The spring animator is idempotent at rest: from a state with
    [|target - value| < 0.01] and [|velocity| < 0.01], one tick sets
    [value] to [target] and [velocity] to [0] and reports settled
    ([false]); the state it leaves is a fixed point: every further
    tick, whatever its [dt], returns the same state and reports settled
    again. *)
Theorem spring_idempotent_at_rest (state : AnimationState) (dt : Q) :
  Qabs (target state - value state) < 1 # 100 ->
  Qabs (velocity state) < 1 # 100 ->
  let settled := fst (updateSpringAnimation state dt) in
  snd (updateSpringAnimation state dt) = false
  /\ value settled = target state
  /\ velocity settled = 0
  /\ target settled = target state
  /\ (forall dt', updateSpringAnimation settled dt' = (settled, false))
  /\ (forall n dt', ticks n dt' settled = settled).
Proof.
  intros Hd Hv.
  assert (R : atRest state = true) by (apply atRest_iff; split; assumption).
  rewrite (update_at_rest _ dt R). cbn [fst snd value velocity target].
  repeat split.
  - intros dt'. rewrite (update_at_rest _ dt' (settled_atRest _)). reflexivity.
  - intros n dt'. apply ticks_settled.
Qed.

Lemma spring_idempotent_at_rest_witness :
  let state := {| value := 19999 # 200; target := 100; velocity := 1 # 1000 |} in
  let settled := fst (updateSpringAnimation state (1 # 60)) in
  Qabs (target state - value state) < 1 # 100
  /\ Qabs (velocity state) < 1 # 100
  /\ snd (updateSpringAnimation state (1 # 60)) = false
  /\ value settled = 100
  /\ velocity settled = 0
  /\ target settled = 100
  /\ (forall dt', updateSpringAnimation settled dt' = (settled, false))
  /\ (forall n dt', ticks n dt' settled = settled).
Proof.
  cbn zeta.
  split; [vm_compute; reflexivity|].
  split; [vm_compute; reflexivity|].
  apply (spring_idempotent_at_rest
           {| value := 19999 # 200; target := 100; velocity := 1 # 1000 |} (1 # 60));
    vm_compute; reflexivity.
Defined.

(** C6.  A tick from a state that is not at rest
    ([|target - value| >= 0.01] or [|velocity| >= 0.01]) adds
    [((200 * (target - value) - 20 * velocity) / 1) * dt] to the
    velocity, then adds the new velocity times [dt] to the value, keeps
    the target and reports still active ([true]); and one run of the
    animation loop ticks every state with
    [min((currentTime - lastTime) / 1000, 0.1)]: the elapsed time in
    seconds, never more than [0.1]. *)
Theorem spring_tick_active (state : AnimationState) (dt : Q) :
  (1 # 100 <= Qabs (target state - value state)
   \/ 1 # 100 <= Qabs (velocity state)) ->
  let r := updateSpringAnimation state dt in
  velocity (fst r) ==
    velocity state
    + ((200 * (target state - value state) - 20 * velocity state) / 1) * dt
  /\ value (fst r) == value state + velocity (fst r) * dt
  /\ target (fst r) = target state
  /\ snd r = true
  /\ (forall currentTime lastTime a,
        animationLoop currentTime lastTime a =
        (currentTime,
         forEachState
           (fun s => fst (updateSpringAnimation s (deltaTime currentTime lastTime))) a,
         existsb
           (fun s => snd (updateSpringAnimation s (deltaTime currentTime lastTime)))
           (stateList a))
        /\ deltaTime currentTime lastTime
           == Qmin ((currentTime - lastTime) / 1000) (1 # 10)
        /\ deltaTime currentTime lastTime <= 1 # 10
        /\ ((currentTime - lastTime) / 1000 <= 1 # 10 ->
            deltaTime currentTime lastTime == (currentTime - lastTime) / 1000)).
Proof.
  intros H.
  assert (R : atRest state = false) by (apply atRest_false_iff; exact H).
  cbn zeta. rewrite (update_active _ dt R). cbn [fst snd value velocity target].
  unfold SPRING_STIFFNESS, SPRING_DAMPING, SPRING_MASS.
  split; [field|]. split; [reflexivity|]. split; [reflexivity|]. split; [reflexivity|].
  intros currentTime lastTime a. split; [reflexivity|]. split; [reflexivity|].
  split; [apply deltaTime_le|].
  intros Hle. unfold deltaTime. apply Q.min_l. exact Hle.
Qed.

Lemma spring_tick_active_witness :
  let state := {| value := 0; target := 60; velocity := 0 |} in
  let r := updateSpringAnimation state (1 # 60) in
  (1 # 100 <= Qabs (target state - value state)
   \/ 1 # 100 <= Qabs (velocity state))
  /\ velocity (fst r) == 200
  /\ value (fst r) == 10 # 3
  /\ snd r = true
  /\ deltaTime 1016 1000 == 16 # 1000
  /\ deltaTime 5000 1000 == 1 # 10.
Proof.
  cbn zeta.
  assert (H : 1 # 100 <= Qabs (60 - 0) \/ 1 # 100 <= Qabs 0)
    by (left; vm_compute; discriminate).
  split; [exact H|].
  destruct (spring_tick_active {| value := 0; target := 60; velocity := 0 |} (1 # 60) H)
    as (Hv & Hx & _ & Hb & _).
  split; [rewrite Hv; vm_compute; reflexivity|].
  split; [rewrite Hx, Hv; vm_compute; reflexivity|].
  split; [exact Hb|].
  split; vm_compute; reflexivity.
Defined.

(** From every state, finitely many ticks of a step [0 < dt <= 1/25]
    lead to rest, and one more to the settled state, for good. *)
Lemma ticks_reach_rest (dt : Q) (state : AnimationState) :
  0 < dt -> dt <= 1 # 25 ->
  exists n : nat, atRest (ticks n dt state) = true.
Proof.
  intros H0 H1.
  destruct (steps_for dt (energy dt state) H0) as (n & Hn).
  destruct (rest_within dt n H0 H1 state Hn) as (k & _ & Hr).
  exists k. exact Hr.
Qed.

Lemma ticks_after_rest (n m : nat) (dt : Q) (state : AnimationState) :
  atRest (ticks n dt state) = true ->
  ticks (S n + m) dt state
  = {| value := target state; target := target state; velocity := 0 |}.
Proof.
  intros Hr.
  rewrite ticks_add, ticks_succ_r, (tick_at_rest _ _ Hr), ticks_target.
  apply ticks_settled.
Qed.

(** With exact arithmetic the spring converges from every state, for
    every fixed step [0 < dt <= 1/25]. *)
Lemma spring_converges_exact (dt : Q) (state : AnimationState) :
  0 < dt -> dt <= 1 # 25 ->
  exists n : nat,
    (Qabs (target state - value (ticks n dt state)) < 1 # 100
     /\ Qabs (velocity (ticks n dt state)) < 1 # 100)
    /\ updateSpringAnimation (ticks n dt state) dt
       = ({| value := target state; target := target state; velocity := 0 |}, false)
    /\ forall m, ticks (S n + m) dt state
                 = {| value := target state; target := target state; velocity := 0 |}.
Proof.
  intros H0 H1.
  destruct (ticks_reach_rest dt state H0 H1) as (k & Hr).
  exists k.
  pose proof (proj1 (atRest_iff _) Hr) as (Hd & Hv).
  rewrite ticks_target in Hd. unfold SPRING_PRECISION in *.
  split; [split; assumption|].
  split.
  - rewrite (update_at_rest _ dt Hr), ticks_target. reflexivity.
  - intros m. apply ticks_after_rest. exact Hr.
Qed.

(** C9.  A tick changes only [value] and [velocity]: for every state
    and every [dt] the [target] after [updateSpringAnimation] is the
    [target] before it, on the settled branch and on the active one. *)
Theorem spring_tick_keeps_target (state : AnimationState) (dt : Q) :
  target (fst (updateSpringAnimation state dt)) = target state
  /\ exists value' velocity',
       fst (updateSpringAnimation state dt)
       = {| value := value'; target := target state; velocity := velocity' |}.
Proof.
  unfold updateSpringAnimation.
  destruct (_ && _); cbn [fst target].
  - split; [reflexivity|]. eexists. eexists. reflexivity.
  - split; [reflexivity|]. eexists. eexists. reflexivity.
Qed.

(** ** The animation-state table *)

Lemma loopTicks_forEach (n : nat) (dt : Q) (a : AnimationStates) :
  loopTicks n dt a = forEachState (ticks n dt) a.
Proof.
  revert a. induction n as [|n IH]; intros a; cbn [loopTicks].
  - destruct a. reflexivity.
  - rewrite IH. reflexivity.
Qed.

(** An update snaps exactly when the value of [titleSize] is zero. *)
Lemma update_snaps (props : Props) (a : AnimationStates) :
  value (titleSize a) == 0 ->
  updateAnimationTargets props a = forEachState snapToTarget (assignTargets props a).
Proof.
  intros H. unfold updateAnimationTargets. cbn [assignTargets titleSize setTarget value].
  rewrite (Qeq_eq_bool _ _ H). reflexivity.
Qed.

Lemma update_animates (props : Props) (a : AnimationStates) :
  ~ value (titleSize a) == 0 ->
  updateAnimationTargets props a = assignTargets props a.
Proof.
  intros H. unfold updateAnimationTargets. cbn [assignTargets titleSize setTarget value].
  destruct (Qeq_bool (value (titleSize a)) 0) eqn:E; [|reflexivity].
  apply Qeq_bool_eq in E. contradiction.
Qed.

(** C3.  Fails on the code: the snap is taken whenever the value of
    [titleSize] is zero, not only at the first update.  After creation,
    an update with title size 0 and icon abscissa 30 snaps; a second
    update, with title size 0 and icon abscissa 70, snaps again: the
    value of [iconX] jumps from 30 to 70, where the assignment of the
    targets alone would have left it at 30 for the spring to move. *)
Theorem update_snaps_again_at_zero_title_size :
  let a1 := updateAnimationTargets (sampleProps 0 30) animationStates0 in
  let a2 := updateAnimationTargets (sampleProps 0 70) a1 in
  iconX a1 = {| value := 30; target := 30; velocity := 0 |}
  /\ iconX a2 = {| value := 70; target := 70; velocity := 0 |}
  /\ iconX (assignTargets (sampleProps 0 70) a1)
     = {| value := 30; target := 70; velocity := 0 |}.
Proof.
  cbn zeta. repeat split.
Qed.

(** The same with title sizes a user sets: size 48 (the first update,
    which snaps), then size 0; once the loop, at [dt = 1/60], has
    settled the title size at 0, the next update (size 36, icon
    abscissa 70) snaps every value instead of animating. *)
Lemma update_snaps_after_title_size_settles_at_zero :
  exists n : nat,
    let a1 := updateAnimationTargets (sampleProps 48 30) animationStates0 in
    let a2 := updateAnimationTargets (sampleProps 0 30) a1 in
    let a3 := loopTicks (S n) (1 # 60) a2 in
    let a4 := updateAnimationTargets (sampleProps 36 70) a3 in
    titleSize a1 = {| value := 48; target := 48; velocity := 0 |}
    /\ titleSize a2 = {| value := 48; target := 0; velocity := 0 |}
    /\ titleSize a3 = {| value := 0; target := 0; velocity := 0 |}
    /\ iconX a3 = {| value := 30; target := 30; velocity := 0 |}
    /\ iconX a4 = {| value := 70; target := 70; velocity := 0 |}
    /\ titleSize a4 = {| value := 36; target := 36; velocity := 0 |}.
Proof.
  destruct (ticks_reach_rest (1 # 60) {| value := 48; target := 0; velocity := 0 |})
    as (n & Hr); [reflexivity | discriminate |].
  exists n. cbn zeta.
  set (a2 := updateAnimationTargets (sampleProps 0 30)
               (updateAnimationTargets (sampleProps 48 30) animationStates0)).
  assert (T3 : titleSize (loopTicks (S n) (1 # 60) a2)
               = {| value := 0; target := 0; velocity := 0 |}).
  { rewrite loopTicks_forEach. cbn [forEachState titleSize].
    change (titleSize a2) with {| value := 48; target := 0; velocity := 0 |}.
    rewrite <- (Nat.add_0_r (S n)). rewrite (ticks_after_rest n 0 _ _ Hr). reflexivity. }
  assert (I3 : iconX (loopTicks (S n) (1 # 60) a2)
               = {| value := 30; target := 30; velocity := 0 |}).
  { rewrite loopTicks_forEach. cbn [forEachState iconX].
    change (iconX a2) with {| value := 30; target := 30; velocity := 0 |}.
    apply ticks_settled. }
  split; [reflexivity|]. split; [reflexivity|]. split; [exact T3|]. split; [exact I3|].
  rewrite update_snaps by (rewrite T3; reflexivity).
  cbn [forEachState assignTargets iconX titleSize].
  rewrite I3, T3. split; reflexivity.
Qed.

(** ** The export file name *)

(** C10.  The exported file name is [currentRandomFileName] when
    [useRandomFileName] is true and [currentRandomFileName] is present
    and not empty; it is [fileName] in every other case; and the name
    handed over by [exportImage] is that name, a dot, and the
    configured format. *)
Theorem export_file_name (exportConfig : ExportConfig.t) :
  (forall name,
     ExportConfig.useRandomFileName exportConfig = true ->
     ExportConfig.currentRandomFileName exportConfig = Some name ->
     name <> EmptyString ->
     getFinalFileName exportConfig = name)
  /\ (ExportConfig.useRandomFileName exportConfig = false
      \/ ExportConfig.currentRandomFileName exportConfig = None
      \/ ExportConfig.currentRandomFileName exportConfig = Some EmptyString ->
      getFinalFileName exportConfig = ExportConfig.fileName exportConfig)
  /\ outputFileName exportConfig
     = (getFinalFileName exportConfig ++ "." ++ ExportConfig.format exportConfig)%string
  /\ (forall measureText loadSvg offscreenContext numberToString props canvas,
        exportedName
          (exportImage measureText loadSvg offscreenContext numberToString props canvas
             exportConfig)
        = outputFileName exportConfig).
Proof.
  unfold getFinalFileName. repeat split.
  - intros name -> -> Hne. destruct name; [contradiction | reflexivity].
  - intros [-> | [-> | ->]].
    + reflexivity.
    + destruct (ExportConfig.useRandomFileName exportConfig); reflexivity.
    + destruct (ExportConfig.useRandomFileName exportConfig); reflexivity.
Qed.

Lemma export_file_name_witness :
  let random :=
    ExportConfig.mk 3840 2160 "webp" 1 "cover" true (Some "a1b2c3"%string) in
  getFinalFileName random = "a1b2c3"%string
  /\ outputFileName random = "a1b2c3.webp"%string
  /\ getFinalFileName sampleExport = "cover"%string
  /\ outputFileName sampleExport = "cover.png"%string.
Proof.
  cbn zeta.
  destruct (export_file_name
              (ExportConfig.mk 3840 2160 "webp" 1 "cover" true (Some "a1b2c3"%string)))
    as (Hr & _ & Ho & _).
  destruct (export_file_name sampleExport) as (_ & Hf & Ho' & _).
  split; [apply Hr; [reflexivity | reflexivity | discriminate]|].
  split; [rewrite Ho, (Hr "a1b2c3"%string); [reflexivity | reflexivity | reflexivity | discriminate]|].
  split; [apply Hf; left; reflexivity|].
  rewrite Ho', Hf; [reflexivity | left; reflexivity].
Defined.

(** ** Layout *)

(** The three zones of a percent, as the tests of the source decide
    them. *)
Lemma zone_start (p : Q) : p <= 0 -> Qle_bool p 0 = true.
Proof. apply Qle_bool_iff. Qed.

Lemma zone_end (p : Q) : 100 <= p -> Qle_bool p 0 = false /\ Qle_bool 100 p = true.
Proof.
  intros H. split.
  - apply Qle_bool_false. lra.
  - apply Qle_bool_iff. exact H.
Qed.

Lemma zone_middle (p : Q) :
  0 < p -> p < 100 -> Qle_bool p 0 = false /\ Qle_bool 100 p = false.
Proof.
  intros H0 H1. split; apply Qle_bool_false; assumption.
Qed.

Lemma zone_centre (p : Q) : p == 50 -> Qle_bool p 0 = false /\ Qle_bool 100 p = false.
Proof.
  intros H. apply zone_middle; lra.
Qed.

(** Each clause of a layout statement picks its branch of the source
    and leaves an identity of rationals. *)
Ltac zones :=
  unfold zoneLayout, centredLayout, anchoredLayout,
         startRule, endRule, interpolationRule, centreRule;
  repeat match goal with
  | |- _ /\ _ => split
  | |- _ <= 0 -> _ =>
      let H := fresh in intros H; rewrite (zone_start _ H)
  | |- 100 <= _ -> _ =>
      let H := fresh in intros H; destruct (zone_end _ H) as [-> ->]
  | |- 0 < _ -> _ < 100 -> _ =>
      let H := fresh in let H' := fresh in
      intros H H'; destruct (zone_middle _ H H') as [-> ->]
  | |- _ == 50 -> _ =>
      let H := fresh in
      intros H; destruct (zone_centre _ H) as [-> ->];
      cbn [fst snd textCentreX]; try rewrite H
  end;
  cbn [fst snd textCentreX]; try reflexivity; try field.

Lemma renderFrame_iconPosX_zones (c : Canvas) (content p : Q) :
  zoneLayout p (width c) content (renderFrame_iconPosX c content p)
  /\ centreRule p (width c) (renderFrame_iconPosX c content p).
Proof. unfold renderFrame_iconPosX. cbn zeta. zones. Qed.

Lemma renderFrame_iconPosY_zones (c : Canvas) (content p : Q) :
  zoneLayout p (height c) content (renderFrame_iconPosY c content p)
  /\ centreRule p (height c) (renderFrame_iconPosY c content p).
Proof. unfold renderFrame_iconPosY. cbn zeta. zones. Qed.

Lemma renderFrame_titlePosY_zones (c : Canvas) (content p : Q) :
  zoneLayout p (height c) content (renderFrame_titlePosY c content p)
  /\ centreRule p (height c) (renderFrame_titlePosY c content p).
Proof. unfold renderFrame_titlePosY. cbn zeta. zones. Qed.

Lemma renderFrame_watermarkPosY_zones (c : Canvas) (content p : Q) :
  zoneLayout p (height c) content (renderFrame_watermarkPosY c content p)
  /\ centreRule p (height c) (renderFrame_watermarkPosY c content p).
Proof. unfold renderFrame_watermarkPosY. cbn zeta. zones. Qed.

Lemma renderFrame_titlePosX_anchor (c : Canvas) (w p : Q) :
  anchoredLayout p (width c) (renderFrame_titlePosX c w p).
Proof. unfold renderFrame_titlePosX. cbn zeta. zones. Qed.

Lemma renderFrame_titlePosX_centre (c : Canvas) (w p : Q) :
  let a := renderFrame_titlePosX c w p in
  zoneLayout p (width c) w (textCentreX (fst a) (snd a) w)
  /\ centreRule p (width c) (textCentreX (fst a) (snd a) w).
Proof. unfold renderFrame_titlePosX. cbn zeta. zones. Qed.

Lemma renderFrame_watermarkPosX_anchor (c : Canvas) (w p : Q) :
  anchoredLayout p (width c) (renderFrame_watermarkPosX c w p).
Proof. unfold renderFrame_watermarkPosX. cbn zeta. zones. Qed.

Lemma renderFrame_watermarkPosX_centre (c : Canvas) (w p : Q) :
  let a := renderFrame_watermarkPosX c w p in
  zoneLayout p (width c) w (textCentreX (fst a) (snd a) w)
  /\ centreRule p (width c) (textCentreX (fst a) (snd a) w).
Proof. unfold renderFrame_watermarkPosX. cbn zeta. zones. Qed.

(** The export resolves its positions with the same expressions, read
    on the export canvas, the scaled sizes and the configured
    percents. *)
Lemma exportImage_positions (props : Props) (canvas exportCanvas : Canvas) (w : Q) :
  exportImage_iconPosX props canvas exportCanvas
  = renderFrame_iconPosX exportCanvas (exportImage_iconSize props canvas exportCanvas)
      (x (IconConfig.position (iconConfig props)))
  /\ exportImage_iconPosY props canvas exportCanvas
     = renderFrame_iconPosY exportCanvas (exportImage_iconSize props canvas exportCanvas)
         (y (IconConfig.position (iconConfig props)))
  /\ exportImage_titlePosX props exportCanvas w
     = renderFrame_titlePosX exportCanvas w (x (TitleConfig.position (titleConfig props)))
  /\ exportImage_titlePosY props exportCanvas w
     = renderFrame_titlePosY exportCanvas w (y (TitleConfig.position (titleConfig props)))
  /\ exportImage_watermarkPosX props exportCanvas w
     = renderFrame_watermarkPosX exportCanvas w
         (x (WatermarkConfig.position (watermarkConfig props)))
  /\ exportImage_watermarkPosY props exportCanvas w
     = renderFrame_watermarkPosY exportCanvas w
         (y (WatermarkConfig.position (watermarkConfig props))).
Proof. repeat split. Qed.

(** At twice the width and the same height the ordinate of the icon
    is not twice the ordinate of the preview. *)
Example export_position_recomputed :
  renderFrame_iconPosY previewCanvas0 200 30 == 364
  /\ exportImage_iconPosY (sampleProps 48 25) previewCanvas0 (newCanvas 3840 1080) == 404
  /\ ~ exportImage_iconPosY (sampleProps 48 25) previewCanvas0 (newCanvas 3840 1080)
       == 2 * renderFrame_iconPosY previewCanvas0 200 30.
Proof. repeat split; vm_compute; discriminate. Qed.


(** ** The colour background *)

(** Two hexadecimal digits parse to their value in radix 16. *)
Lemma parseInt16_pair (c1 c2 : ascii) (v1 v2 : Z) :
  hexDigit c1 = Some v1 -> hexDigit c2 = Some v2 ->
  parseInt16 (String c1 (String c2 EmptyString)) = Some (16 * v1 + v2)%Z.
Proof.
  intros H1 H2.
  destruct c1 as [[] [] [] [] [] [] [] []]; vm_compute in H1; try discriminate H1;
    injection H1 as <-;
    destruct c2 as [[] [] [] [] [] [] [] []]; vm_compute in H2; try discriminate H2;
    injection H2 as <-; reflexivity.
Qed.

(** ** Sizes in the preview and in the export *)

Lemma strokeWidths_app (l1 l2 : list DrawCall) :
  strokeWidths (l1 ++ l2) = (strokeWidths l1 ++ strokeWidths l2)%list.
Proof.
  induction l1 as [|call l1 IH]; [reflexivity|].
  destruct call; cbn [strokeWidths app]; rewrite IH; reflexivity.
Qed.

Section StrokeWidths.

Variable measureText : Font -> string -> Q.
Variable props : Props.
Hypothesis Htext : truthy (TitleConfig.text (titleConfig props)) = true.
Hypothesis Hbold : TitleConfig.bold (TitleConfig.effects (titleConfig props)) = true.
Hypothesis Hfont : TitleConfig.font (titleConfig props) = "Maple Mono CN".

(** The title is stroked once in each pass: in the preview with a
    width of [size * 2 * 0.01], in the export with [titleSize * 0.01],
    [titleSize] being the size scaled to the export. *)
Lemma renderFrame_title_stroke (currentTitleX currentTitleY : Q) (c : Canvas) :
  strokeWidths (calls (renderFrame_title measureText props currentTitleX currentTitleY c))
  = (strokeWidths (calls c)
     ++ [TitleConfig.size (titleConfig props) * 2 * (1 # 100)])%list.
Proof.
  unfold renderFrame_title. rewrite Htext, Hbold, Hfont.
  cbn zeta. cbn [andb String.eqb].
  change ("Maple Mono CN" =? "Maple Mono CN") with true. cbn iota.
  destruct (Qltb 0 _);
    destruct (renderFrame_titlePosX _ _ _) as [align px];
    destruct (TitleConfig.italic _);
    cbn; rewrite !strokeWidths_app; cbn; rewrite app_nil_r; reflexivity.
Qed.

Lemma exportImage_title_stroke (canvas exportCanvas : Canvas) :
  strokeWidths (calls (exportImage_title measureText props canvas exportCanvas))
  = (strokeWidths (calls exportCanvas)
     ++ [TitleConfig.size (titleConfig props) * (width exportCanvas / width canvas)
         * (1 # 100)])%list.
Proof.
  unfold exportImage_title, exportImage_titleSize. rewrite Htext, Hbold, Hfont.
  cbn zeta. cbn [andb String.eqb].
  change ("Maple Mono CN" =? "Maple Mono CN") with true. cbn iota.
  destruct (exportImage_titlePosX _ _ _) as [align px];
    destruct (Qltb 0 _);
    destruct (TitleConfig.italic _);
    cbn; rewrite !strokeWidths_app; cbn; rewrite app_nil_r; reflexivity.
Qed.

(** At twice the width the two widths of the stroke of the title are
    equal: the export does not double the one of the preview. *)
Lemma title_stroke_same_at_double_width (canvas exportCanvas : Canvas) :
  ~ width canvas == 0 -> width exportCanvas == 2 * width canvas ->
  TitleConfig.size (titleConfig props) * (width exportCanvas / width canvas) * (1 # 100)
  == TitleConfig.size (titleConfig props) * 2 * (1 # 100).
Proof.
  intros Hw H2. rewrite H2. field. exact Hw.
Qed.

End StrokeWidths.

Section WatermarkStrokeWidths.

Variable measureText : Font -> string -> Q.
Variable props : Props.
Hypothesis Htext : truthy (WatermarkConfig.text (watermarkConfig props)) = true.
Hypothesis Hbold :
  WatermarkConfig.bold (WatermarkConfig.effects (watermarkConfig props)) = true.
Hypothesis Hfont : WatermarkConfig.font (watermarkConfig props) = "Maple Mono CN".

(** The sibling path: the watermark is stroked with [size * 0.01] in
    the preview and with the scaled size times [0.01] in the export,
    which is twice the former at twice the width. *)
Lemma renderFrame_watermark_stroke (currentWatermarkX currentWatermarkY : Q)
  (c : Canvas) :
  strokeWidths
    (calls (renderFrame_watermark measureText props currentWatermarkX currentWatermarkY c))
  = (strokeWidths (calls c)
     ++ [WatermarkConfig.size (watermarkConfig props) * (1 # 100)])%list.
Proof.
  unfold renderFrame_watermark. rewrite Htext, Hbold, Hfont.
  cbn zeta. cbn [andb String.eqb].
  change ("Maple Mono CN" =? "Maple Mono CN") with true. cbn iota.
  destruct (renderFrame_watermarkPosX _ _ _) as [align px];
    destruct (WatermarkConfig.italic _);
    cbn; rewrite !strokeWidths_app; cbn; rewrite app_nil_r; reflexivity.
Qed.

Lemma exportImage_watermark_stroke (canvas exportCanvas : Canvas) :
  strokeWidths (calls (exportImage_watermark measureText props canvas exportCanvas))
  = (strokeWidths (calls exportCanvas)
     ++ [WatermarkConfig.size (watermarkConfig props)
         * (width exportCanvas / width canvas) * (1 # 100)])%list.
Proof.
  unfold exportImage_watermark, exportImage_watermarkSize. rewrite Htext, Hbold, Hfont.
  cbn zeta. cbn [andb String.eqb].
  change ("Maple Mono CN" =? "Maple Mono CN") with true. cbn iota.
  destruct (exportImage_watermarkPosX _ _ _) as [align px];
    destruct (WatermarkConfig.italic _);
    cbn; rewrite !strokeWidths_app; cbn; rewrite app_nil_r; reflexivity.
Qed.

Lemma watermark_stroke_doubles (canvas exportCanvas : Canvas) :
  ~ width canvas == 0 -> width exportCanvas == 2 * width canvas ->
  WatermarkConfig.size (watermarkConfig props) * (width exportCanvas / width canvas)
  * (1 # 100)
  == 2 * (WatermarkConfig.size (watermarkConfig props) * (1 # 100)).
Proof.
  intros Hw H2. rewrite H2. field. exact Hw.
Qed.

End WatermarkStrokeWidths.

(** C1.  Fails on the code at the stroke of the title.  For the title
    "Hello" in bold "Maple Mono CN" at size 100 (text shadow 4, an icon
    of size 200 with shadow 8, a bold watermark of size 30), the
    export at 3840 wide doubles every size quantity of the frame drawn
    at rest on the 1920 wide preview (image 200 to 400, shadow blur 8
    to 16, font sizes 100 to 200 and 30 to 60, text shadow 8, 4, 4 to
    16, 8, 8, watermark stroke 0.3 to 0.6) except the width of the
    stroke of the title, which is 2 in both passes, where the claim
    asks for 4 in the export. *)
Theorem title_stroke_width_not_doubled :
  let props := sampleProps 100 50 in
  let settled := updateAnimationTargets props animationStates0 in
  let preview :=
    fst (renderCurrentFrame sampleMeasureText sampleLoadSvg true sampleNumberToString
           props None settled
           previewCanvas0) in
  let exported :=
    exportedCanvas
      (exportImage sampleMeasureText sampleLoadSvg true sampleNumberToString props
         previewCanvas0 sampleExport) in
  width exported == 2 * width preview
  /\ Forall2 Qeq (strokeWidths (calls preview)) [2; 3 # 10]
  /\ Forall2 Qeq (strokeWidths (calls exported)) [2; 6 # 10]
  /\ Forall2 Qeq (flat_map sizeQuantities (calls preview))
       [200; 200; 8;  100; 8; 4; 4; 2;  100; 8; 4; 4;
        30; 0; 0; 0; 3 # 10;  30; 0; 0; 0]
  /\ Forall2 Qeq (flat_map sizeQuantities (calls exported))
       [400; 400; 16;  200; 16; 8; 8; 2;  200; 16; 8; 8;
        60; 0; 0; 0; 6 # 10;  60; 0; 0; 0].
Proof.
  cbn zeta. split; [reflexivity|].
  repeat split; vm_compute; repeat constructor.
Qed.


(** ** What the stages of a pass draw *)

Lemma fillRects_app (l1 l2 : list DrawCall) :
  fillRects (l1 ++ l2) = (fillRects l1 ++ fillRects l2)%list.
Proof.
  induction l1 as [|call l1 IH]; [reflexivity|].
  destruct call; cbn [fillRects app]; rewrite IH; reflexivity.
Qed.

Lemma imageDraws_app (l1 l2 : list DrawCall) :
  imageDraws (l1 ++ l2) = (imageDraws l1 ++ imageDraws l2)%list.
Proof.
  induction l1 as [|call l1 IH]; [reflexivity|].
  destruct call; cbn [imageDraws app]; rewrite IH; reflexivity.
Qed.

Lemma fillTexts_app (l1 l2 : list DrawCall) :
  fillTexts (l1 ++ l2) = (fillTexts l1 ++ fillTexts l2)%list.
Proof.
  induction l1 as [|call l1 IH]; [reflexivity|].
  destruct call; cbn [fillTexts app]; rewrite IH; reflexivity.
Qed.

(** A stage is unfolded, its tests are decided one after the other, and
    what it appends is read off through the observers. *)
Ltac decide_tests :=
  repeat match goal with
  | |- context [if ?b then _ else _] => destruct b eqn:?
  | |- context [match ?a with (_, _) => _ end] => destruct a eqn:?
  end.

Ltac observe :=
  cbn; rewrite ?fillRects_app, ?imageDraws_app, ?fillTexts_app;
  cbn; rewrite ?app_nil_r; try reflexivity.

Section PreviewStages.

Variable measureText : Font -> string -> Q.
Variable loadSvg : string -> option Image.
Variable offscreenContext : bool.
Variable numberToString : Q -> string.
Variable props : Props.

Lemma whiteFilled_size (c : Canvas) :
  width (whiteFilled c) = width c /\ height (whiteFilled c) = height c
  /\ currentTransform (context (whiteFilled c)) = currentTransform (context c).
Proof. repeat split. Qed.

Lemma renderFrame_background_size (c : Canvas) :
  width (renderFrame_background offscreenContext numberToString props c) = width c
  /\ height (renderFrame_background offscreenContext numberToString props c) = height c
  /\ currentTransform (context (renderFrame_background offscreenContext numberToString props c))
     = currentTransform (context c).
Proof.
  unfold renderFrame_background, renderFrame_color, renderFrame_gradient,
    renderFrame_image.
  destruct (BackgroundConfig.type _).
  - repeat split.
  - repeat split.
  - destruct (BackgroundConfig.imageObj _); [|repeat split].
    decide_tests; repeat split.
Qed.

Lemma renderFrame_background_texts (c : Canvas) :
  fillTexts (calls (renderFrame_background offscreenContext numberToString props c))
  = fillTexts (calls c).
Proof.
  unfold renderFrame_background, renderFrame_color, renderFrame_gradient,
    renderFrame_image.
  destruct (BackgroundConfig.type _).
  - observe.
  - observe.
  - destruct (BackgroundConfig.imageObj _); [|reflexivity].
    decide_tests; observe.
Qed.

Lemma drawIconImage_effect (img : Image) (px py size : Q) (c : Canvas) :
  let c' := drawIconImage props img px py size c in
  width c' = width c /\ height c' = height c
  /\ currentTransform (context c') = currentTransform (context c)
  /\ fillTexts (calls c') = fillTexts (calls c)
  /\ fillRects (calls c') = fillRects (calls c)
  /\ exists dw dh,
       imageDraws (calls c')
       = (imageDraws (calls c)
          ++ [(imageElement img, (px - dw / 2, py - dh / 2), (dw, dh))])%list.
Proof.
  cbn zeta. unfold drawIconImage, drawShadow, clearShadow.
  decide_tests; (repeat split; [observe ..| eexists; eexists; observe]).
Qed.

Lemma renderFrame_icon_effect (iconImageCache : option Image) (img : Image)
  (currentIconSize currentIconX currentIconY : Q) (c : Canvas) :
  truthy (IconConfig.svg (iconConfig props)) = true ->
  iconImage loadSvg props iconImageCache = Some img ->
  let c' :=
    fst (renderFrame_icon loadSvg props iconImageCache
           currentIconSize currentIconX currentIconY c) in
  width c' = width c /\ height c' = height c
  /\ currentTransform (context c') = currentTransform (context c)
  /\ fillTexts (calls c') = fillTexts (calls c)
  /\ fillRects (calls c') = fillRects (calls c)
  /\ exists dw dh,
       imageDraws (calls c')
       = (imageDraws (calls c)
          ++ [(imageElement img,
               (renderFrame_iconPosX c currentIconSize currentIconX - dw / 2,
                renderFrame_iconPosY c currentIconSize currentIconY - dh / 2),
               (dw, dh))])%list.
Proof.
  intros Hsvg Himg. unfold renderFrame_icon, drawIcon. rewrite Hsvg. cbn [negb].
  unfold iconImage in Himg.
  destruct iconImageCache as [cached|].
  - injection Himg as ->. apply drawIconImage_effect.
  - rewrite Himg. apply drawIconImage_effect.
Qed.

Lemma renderFrame_icon_frame (iconImageCache : option Image)
  (currentIconSize currentIconX currentIconY : Q) (c : Canvas) :
  let c' :=
    fst (renderFrame_icon loadSvg props iconImageCache
           currentIconSize currentIconX currentIconY c) in
  width c' = width c /\ height c' = height c
  /\ currentTransform (context c') = currentTransform (context c)
  /\ fillTexts (calls c') = fillTexts (calls c)
  /\ fillRects (calls c') = fillRects (calls c).
Proof.
  cbn zeta. unfold renderFrame_icon, drawIcon.
  destruct (truthy _); [|repeat split]. cbn [negb].
  destruct iconImageCache as [img|]; cbn [fst].
  - repeat split; apply drawIconImage_effect.
  - destruct (loadSvg _) as [img|]; cbn [fst]; [|repeat split].
    repeat split; apply drawIconImage_effect.
Qed.

Lemma renderFrame_title_context (currentTitleX currentTitleY : Q) (c : Canvas) :
  let c' := renderFrame_title measureText props currentTitleX currentTitleY c in
  width c' = width c /\ height c' = height c
  /\ context c' = context c /\ saved c' = saved c
  /\ fillRects (calls c') = fillRects (calls c)
  /\ imageDraws (calls c') = imageDraws (calls c).
Proof.
  cbn zeta. unfold renderFrame_title.
  destruct (truthy _); [|repeat split].
  cbn zeta. decide_tests; repeat split; observe.
Qed.

Lemma renderFrame_watermark_context (currentWatermarkX currentWatermarkY : Q)
  (c : Canvas) :
  let c' := renderFrame_watermark measureText props currentWatermarkX currentWatermarkY c in
  width c' = width c /\ height c' = height c
  /\ context c' = context c /\ saved c' = saved c
  /\ fillRects (calls c') = fillRects (calls c)
  /\ imageDraws (calls c') = imageDraws (calls c).
Proof.
  cbn zeta. unfold renderFrame_watermark.
  destruct (truthy _); [|repeat split].
  cbn zeta. decide_tests; repeat split; observe.
Qed.

(** The positions depend on the canvas through its size only. *)
Lemma renderFrame_titlePosX_size (c c' : Canvas) (w p : Q) :
  width c' = width c -> renderFrame_titlePosX c' w p = renderFrame_titlePosX c w p.
Proof. unfold renderFrame_titlePosX. intros ->. reflexivity. Qed.

Lemma renderFrame_titlePosY_size (c c' : Canvas) (h p : Q) :
  height c' = height c -> renderFrame_titlePosY c' h p = renderFrame_titlePosY c h p.
Proof. unfold renderFrame_titlePosY. intros ->. reflexivity. Qed.

Lemma renderFrame_watermarkPosX_size (c c' : Canvas) (w p : Q) :
  width c' = width c ->
  renderFrame_watermarkPosX c' w p = renderFrame_watermarkPosX c w p.
Proof. unfold renderFrame_watermarkPosX. intros ->. reflexivity. Qed.

Lemma renderFrame_watermarkPosY_size (c c' : Canvas) (h p : Q) :
  height c' = height c ->
  renderFrame_watermarkPosY c' h p = renderFrame_watermarkPosY c h p.
Proof. unfold renderFrame_watermarkPosY. intros ->. reflexivity. Qed.

Lemma renderFrame_iconPosX_size (c c' : Canvas) (s p : Q) :
  width c' = width c -> renderFrame_iconPosX c' s p = renderFrame_iconPosX c s p.
Proof. unfold renderFrame_iconPosX. intros ->. reflexivity. Qed.

Lemma renderFrame_iconPosY_size (c c' : Canvas) (s p : Q) :
  height c' = height c -> renderFrame_iconPosY c' s p = renderFrame_iconPosY c s p.
Proof. unfold renderFrame_iconPosY. intros ->. reflexivity. Qed.

(** A point drawn under the identity, or at the origin after the
    translation to it and the shear of the italic. *)
Lemma devicePoint_plain (px py : Q) :
  fst (devicePoint identity px py) == px /\ snd (devicePoint identity px py) == py.
Proof. cbn. split; ring. Qed.

Lemma devicePoint_italic (px py : Q) :
  let m := compose (compose identity 1 0 0 1 px py) 1 0 (- (2 # 10)) 1 0 0 in
  fst (devicePoint m 0 0) == px /\ snd (devicePoint m 0 0) == py.
Proof. cbn. split; ring. Qed.

Lemma renderFrame_title_texts (currentTitleX currentTitleY : Q) (c : Canvas) :
  truthy (TitleConfig.text (titleConfig props)) = true ->
  currentTransform (context c) = identity ->
  let size := TitleConfig.size (titleConfig props) in
  let text := TitleConfig.text (titleConfig props) in
  let a := renderFrame_titlePosX c (measureText (titleFont props size) text)
             currentTitleX in
  let py := renderFrame_titlePosY c size currentTitleY in
  exists tx ty,
    fillTexts (calls (renderFrame_title measureText props currentTitleX currentTitleY c))
    = (fillTexts (calls c) ++ [(text, fst a, (tx, ty))])%list
    /\ tx == snd a /\ ty == py.
Proof.
  intros Htext Hid size text a py. unfold renderFrame_title. rewrite Htext. cbn zeta.
  destruct (Qltb 0 _);
    cbn [font context withContext save set_font set_fillStyle set_shadowColor
         set_shadowBlur set_shadowOffsetX set_shadowOffsetY];
    fold (titleFont props (TitleConfig.size (titleConfig props)));
    (rewrite (renderFrame_titlePosX_size c) by reflexivity);
    fold size text a;
    destruct a as [align px]; cbv beta iota;
    (rewrite (renderFrame_titlePosY_size c) by reflexivity);
    fold size py;
    destruct (TitleConfig.italic _); destruct (_ && _);
    cbn; rewrite ?fillTexts_app; cbn; rewrite ?app_nil_r; rewrite Hid;
    eexists; eexists; (split; [reflexivity|]); cbn; split; ring.
Qed.

Lemma renderFrame_watermark_texts (currentWatermarkX currentWatermarkY : Q)
  (c : Canvas) :
  truthy (WatermarkConfig.text (watermarkConfig props)) = true ->
  currentTransform (context c) = identity ->
  let size := WatermarkConfig.size (watermarkConfig props) in
  let text := watermarkDisplayText props in
  let a := renderFrame_watermarkPosX c (measureText (watermarkFont props size) text)
             currentWatermarkX in
  let py := renderFrame_watermarkPosY c size currentWatermarkY in
  exists tx ty,
    fillTexts
      (calls (renderFrame_watermark measureText props currentWatermarkX
                currentWatermarkY c))
    = (fillTexts (calls c) ++ [(text, fst a, (tx, ty))])%list
    /\ tx == snd a /\ ty == py.
Proof.
  intros Htext Hid size text a py. unfold renderFrame_watermark. rewrite Htext.
  cbn zeta.
  cbn [font context withContext save set_font set_fillStyle set_globalAlpha].
  fold (watermarkDisplayText props).
  fold (watermarkFont props (WatermarkConfig.size (watermarkConfig props))).
  rewrite (renderFrame_watermarkPosX_size c) by reflexivity.
  fold size text a.
  destruct a as [align px]; cbv beta iota.
  rewrite (renderFrame_watermarkPosY_size c) by reflexivity.
  fold size py.
  destruct (WatermarkConfig.italic _); destruct (_ && _);
    cbn; rewrite ?fillTexts_app; cbn; rewrite ?app_nil_r; rewrite Hid;
    eexists; eexists; (split; [reflexivity|]); cbn; split; ring.
Qed.

(** The frame is its stages in order. *)
Lemma renderFrame_stages (iconImageCache : option Image)
  (currentTitleX currentTitleY currentWatermarkX currentWatermarkY
   currentIconSize currentIconX currentIconY : Q) (c : Canvas) :
  let background :=
    renderFrame_background offscreenContext numberToString props (whiteFilled c) in
  let icon :=
    renderFrame_icon loadSvg props iconImageCache
      currentIconSize currentIconX currentIconY background in
  renderFrame measureText loadSvg offscreenContext numberToString props iconImageCache
    currentTitleX currentTitleY currentWatermarkX currentWatermarkY
    currentIconSize currentIconX currentIconY c
  = (renderFrame_watermark measureText props currentWatermarkX currentWatermarkY
       (renderFrame_title measureText props currentTitleX currentTitleY (fst icon)),
     snd icon).
Proof.
  cbn zeta. unfold renderFrame, whiteFilled.
  destruct (renderFrame_icon _ _ _ _ _ _ _) as [c' cache]. reflexivity.
Qed.

Lemma renderFrame_rects (iconImageCache : option Image)
  (currentTitleX currentTitleY currentWatermarkX currentWatermarkY
   currentIconSize currentIconX currentIconY : Q) (c : Canvas) :
  fillRects
    (calls (fst (renderFrame measureText loadSvg offscreenContext numberToString props
                   iconImageCache currentTitleX currentTitleY currentWatermarkX
                   currentWatermarkY currentIconSize currentIconX currentIconY c)))
  = fillRects
      (calls (renderFrame_background offscreenContext numberToString props
                (whiteFilled c))).
Proof.
  rewrite renderFrame_stages. cbn [fst].
  destruct (renderFrame_watermark_context currentWatermarkX currentWatermarkY
              (renderFrame_title measureText props currentTitleX currentTitleY
                 (fst (renderFrame_icon loadSvg props iconImageCache currentIconSize
                         currentIconX currentIconY
                         (renderFrame_background offscreenContext numberToString props
                            (whiteFilled c))))))
    as (_ & _ & _ & _ & -> & _).
  destruct (renderFrame_title_context currentTitleX currentTitleY
              (fst (renderFrame_icon loadSvg props iconImageCache currentIconSize
                      currentIconX currentIconY
                      (renderFrame_background offscreenContext numberToString props
                         (whiteFilled c)))))
    as (_ & _ & _ & _ & -> & _).
  apply renderFrame_icon_frame.
Qed.

(** The frame with an icon to draw. *)
Lemma renderFrame_icon_draw (iconImageCache : option Image) (img : Image)
  (currentTitleX currentTitleY currentWatermarkX currentWatermarkY
   currentIconSize currentIconX currentIconY : Q) (c : Canvas) :
  truthy (IconConfig.svg (iconConfig props)) = true ->
  iconImage loadSvg props iconImageCache = Some img ->
  let frame :=
    fst (renderFrame measureText loadSvg offscreenContext numberToString props
           iconImageCache currentTitleX currentTitleY currentWatermarkX
           currentWatermarkY currentIconSize currentIconX currentIconY c) in
  let background :=
    renderFrame_background offscreenContext numberToString props (whiteFilled c) in
  exists dw dh,
    imageDraws (calls frame)
    = (imageDraws (calls background)
       ++ [(imageElement img,
            (renderFrame_iconPosX c currentIconSize currentIconX - dw / 2,
             renderFrame_iconPosY c currentIconSize currentIconY - dh / 2),
            (dw, dh))])%list.
Proof.
  intros Hsvg Himg frame background.
  unfold frame. rewrite renderFrame_stages. cbn [fst]. fold background.
  destruct (renderFrame_background_size (whiteFilled c)) as (Bw & Bh & _).
  fold background in Bw, Bh. cbn [whiteFilled] in Bw, Bh.
  destruct (renderFrame_icon_effect iconImageCache img currentIconSize currentIconX
              currentIconY background Hsvg Himg)
    as (_ & _ & _ & _ & _ & dw & dh & Iimg).
  set (icon := fst (renderFrame_icon loadSvg props iconImageCache currentIconSize
                      currentIconX currentIconY background)) in *.
  destruct (renderFrame_title_context currentTitleX currentTitleY icon)
    as (_ & _ & _ & _ & _ & Timg).
  set (title := renderFrame_title measureText props currentTitleX currentTitleY icon)
    in *.
  destruct (renderFrame_watermark_context currentWatermarkX currentWatermarkY title)
    as (_ & _ & _ & _ & _ & Wimg).
  rewrite (renderFrame_iconPosX_size c background) in Iimg by exact Bw.
  rewrite (renderFrame_iconPosY_size c background) in Iimg by exact Bh.
  exists dw, dh. rewrite Wimg, Timg. exact Iimg.
Qed.

(** The frame with a title and a watermark to draw. *)
Lemma renderFrame_text_draws (iconImageCache : option Image)
  (currentTitleX currentTitleY currentWatermarkX currentWatermarkY
   currentIconSize currentIconX currentIconY : Q) (c : Canvas) :
  truthy (TitleConfig.text (titleConfig props)) = true ->
  truthy (WatermarkConfig.text (watermarkConfig props)) = true ->
  currentTransform (context c) = identity ->
  let frame :=
    fst (renderFrame measureText loadSvg offscreenContext numberToString props
           iconImageCache currentTitleX currentTitleY currentWatermarkX
           currentWatermarkY currentIconSize currentIconX currentIconY c) in
  let titleSize := TitleConfig.size (titleConfig props) in
  let titleAnchor :=
    renderFrame_titlePosX c
      (measureText (titleFont props titleSize) (TitleConfig.text (titleConfig props)))
      currentTitleX in
  let watermarkSize := WatermarkConfig.size (watermarkConfig props) in
  let watermarkAnchor :=
    renderFrame_watermarkPosX c
      (measureText (watermarkFont props watermarkSize) (watermarkDisplayText props))
      currentWatermarkX in
  exists tx ty wx wy,
    fillTexts (calls frame)
    = (fillTexts (calls c)
       ++ [(TitleConfig.text (titleConfig props), fst titleAnchor, (tx, ty));
           (watermarkDisplayText props, fst watermarkAnchor, (wx, wy))])%list
    /\ tx == snd titleAnchor
    /\ ty == renderFrame_titlePosY c titleSize currentTitleY
    /\ wx == snd watermarkAnchor
    /\ wy == renderFrame_watermarkPosY c watermarkSize currentWatermarkY.
Proof.
  intros Htitle Hmark Hid frame titleSize titleAnchor watermarkSize watermarkAnchor.
  unfold frame. rewrite renderFrame_stages. cbn [fst].
  set (background :=
         renderFrame_background offscreenContext numberToString props (whiteFilled c)).
  destruct (renderFrame_background_size (whiteFilled c)) as (Bw & Bh & Bt).
  fold background in Bw, Bh, Bt. cbn [whiteFilled] in Bw, Bh, Bt.
  destruct (renderFrame_icon_frame iconImageCache currentIconSize currentIconX
              currentIconY background)
    as (Iw & Ih & It & Itexts & _).
  set (icon := fst (renderFrame_icon loadSvg props iconImageCache currentIconSize
                      currentIconX currentIconY background)) in *.
  destruct (renderFrame_title_context currentTitleX currentTitleY icon)
    as (Tw & Th & Tc & _ & _ & _).
  set (title := renderFrame_title measureText props currentTitleX currentTitleY icon)
    in *.
  assert (Hicon : currentTransform (context icon) = identity)
    by (rewrite It, Bt; exact Hid).
  assert (Htitle' : currentTransform (context title) = identity)
    by (rewrite Tc; exact Hicon).
  destruct (renderFrame_title_texts currentTitleX currentTitleY icon Htitle Hicon)
    as (tx & ty & Ttexts & Etx & Ety).
  destruct (renderFrame_watermark_texts currentWatermarkX currentWatermarkY title
              Hmark Htitle')
    as (wx & wy & Wtexts & Ewx & Ewy).
  fold title in Ttexts.
  rewrite (renderFrame_titlePosX_size c icon) in Ttexts, Etx by (rewrite Iw; exact Bw).
  rewrite (renderFrame_titlePosY_size c icon) in Ety by (rewrite Ih; exact Bh).
  rewrite (renderFrame_watermarkPosX_size c title) in Wtexts, Ewx
    by (rewrite Tw, Iw; exact Bw).
  rewrite (renderFrame_watermarkPosY_size c title) in Ewy
    by (rewrite Th, Ih; exact Bh).
  exists tx, ty, wx, wy.
  split.
  - rewrite Wtexts, Ttexts, Itexts.
    unfold background. rewrite renderFrame_background_texts.
    cbn [whiteFilled]. cbn. rewrite fillTexts_app. cbn. rewrite app_nil_r.
    rewrite <- app_assoc. reflexivity.
  - repeat split; assumption.
Qed.

End PreviewStages.
Section ExportStages.

Variable measureText : Font -> string -> Q.
Variable loadSvg : string -> option Image.
Variable offscreenContext : bool.
Variable numberToString : Q -> string.
Variable props : Props.
Variable canvas : Canvas.

Lemma exportImage_background_size (c : Canvas) :
  width (exportImage_background offscreenContext numberToString props c) = width c
  /\ height (exportImage_background offscreenContext numberToString props c) = height c
  /\ currentTransform (context (exportImage_background offscreenContext numberToString props c))
     = currentTransform (context c).
Proof.
  unfold exportImage_background, exportImage_color, exportImage_gradient,
    exportImage_image.
  destruct (BackgroundConfig.type _).
  - repeat split.
  - repeat split.
  - destruct (BackgroundConfig.imageObj _); [|repeat split].
    decide_tests; repeat split.
Qed.

Lemma exportImage_background_texts (c : Canvas) :
  fillTexts (calls (exportImage_background offscreenContext numberToString props c))
  = fillTexts (calls c).
Proof.
  unfold exportImage_background, exportImage_color, exportImage_gradient,
    exportImage_image.
  destruct (BackgroundConfig.type _).
  - observe.
  - observe.
  - destruct (BackgroundConfig.imageObj _); [|reflexivity].
    decide_tests; observe.
Qed.

Lemma exportImage_iconPosX_size (c c' : Canvas) :
  width c' = width c ->
  exportImage_iconPosX props canvas c' = exportImage_iconPosX props canvas c.
Proof. unfold exportImage_iconPosX, exportImage_iconSize. intros ->. reflexivity. Qed.

Lemma exportImage_iconPosY_size (c c' : Canvas) :
  width c' = width c -> height c' = height c ->
  exportImage_iconPosY props canvas c' = exportImage_iconPosY props canvas c.
Proof.
  unfold exportImage_iconPosY, exportImage_iconSize. intros -> ->. reflexivity.
Qed.

Lemma exportImage_titlePosX_size (c c' : Canvas) (w : Q) :
  width c' = width c ->
  exportImage_titlePosX props c' w = exportImage_titlePosX props c w.
Proof. unfold exportImage_titlePosX. intros ->. reflexivity. Qed.

Lemma exportImage_titlePosY_size (c c' : Canvas) (h : Q) :
  height c' = height c ->
  exportImage_titlePosY props c' h = exportImage_titlePosY props c h.
Proof. unfold exportImage_titlePosY. intros ->. reflexivity. Qed.

Lemma exportImage_watermarkPosX_size (c c' : Canvas) (w : Q) :
  width c' = width c ->
  exportImage_watermarkPosX props c' w = exportImage_watermarkPosX props c w.
Proof. unfold exportImage_watermarkPosX. intros ->. reflexivity. Qed.

Lemma exportImage_watermarkPosY_size (c c' : Canvas) (h : Q) :
  height c' = height c ->
  exportImage_watermarkPosY props c' h = exportImage_watermarkPosY props c h.
Proof. unfold exportImage_watermarkPosY. intros ->. reflexivity. Qed.

Lemma exportImage_icon_frame (c : Canvas) :
  let c' := exportImage_icon loadSvg props canvas c in
  width c' = width c /\ height c' = height c
  /\ currentTransform (context c') = currentTransform (context c)
  /\ fillTexts (calls c') = fillTexts (calls c)
  /\ fillRects (calls c') = fillRects (calls c).
Proof.
  cbn zeta. unfold exportImage_icon.
  destruct (truthy _); [|repeat split].
  destruct (loadSvg _) as [img|]; [|repeat split].
  decide_tests; repeat split; observe.
Qed.

Lemma exportImage_icon_effect (img : Image) (c : Canvas) :
  truthy (IconConfig.svg (iconConfig props)) = true ->
  loadSvg (IconConfig.svg (iconConfig props)) = Some img ->
  let c' := exportImage_icon loadSvg props canvas c in
  width c' = width c /\ height c' = height c
  /\ currentTransform (context c') = currentTransform (context c)
  /\ fillTexts (calls c') = fillTexts (calls c)
  /\ exists dw dh,
       imageDraws (calls c')
       = (imageDraws (calls c)
          ++ [(imageElement img,
               (exportImage_iconPosX props canvas c - dw / 2,
                exportImage_iconPosY props canvas c - dh / 2),
               (dw, dh))])%list.
Proof.
  intros Hsvg Himg. cbn zeta. unfold exportImage_icon. rewrite Hsvg, Himg.
  decide_tests; (repeat split; [observe ..| eexists; eexists; observe]).
Qed.

Lemma exportImage_title_context (c : Canvas) :
  let c' := exportImage_title measureText props canvas c in
  width c' = width c /\ height c' = height c
  /\ currentTransform (context c') = currentTransform (context c)
  /\ fillRects (calls c') = fillRects (calls c)
  /\ imageDraws (calls c') = imageDraws (calls c).
Proof.
  cbn zeta. unfold exportImage_title.
  destruct (truthy _); [|repeat split].
  cbn zeta. decide_tests; repeat split; observe.
Qed.

Lemma exportImage_watermark_context (c : Canvas) :
  let c' := exportImage_watermark measureText props canvas c in
  width c' = width c /\ height c' = height c
  /\ context c' = context c
  /\ fillRects (calls c') = fillRects (calls c)
  /\ imageDraws (calls c') = imageDraws (calls c).
Proof.
  cbn zeta. unfold exportImage_watermark.
  destruct (truthy _); [|repeat split].
  cbn zeta. decide_tests; repeat split; observe.
Qed.

Lemma exportImage_title_texts (c : Canvas) :
  truthy (TitleConfig.text (titleConfig props)) = true ->
  currentTransform (context c) = identity ->
  let size := exportImage_titleSize props canvas c in
  let text := TitleConfig.text (titleConfig props) in
  let a := exportImage_titlePosX props c (measureText (titleFont props size) text) in
  let py := exportImage_titlePosY props c size in
  exists tx ty,
    fillTexts (calls (exportImage_title measureText props canvas c))
    = (fillTexts (calls c) ++ [(text, fst a, (tx, ty))])%list
    /\ tx == snd a /\ ty == py.
Proof.
  intros Htext Hid size text a py. unfold exportImage_title. rewrite Htext.
  cbn zeta.
  cbn [font context withContext save set_font set_fillStyle].
  fold (titleFont props (exportImage_titleSize props canvas c)).
  fold size text.
  fold a.
  destruct a as [align px]; cbv beta iota.
  fold py.
  destruct (Qltb 0 _); destruct (TitleConfig.italic _); destruct (_ && _);
    cbn; rewrite ?fillTexts_app; cbn; rewrite ?app_nil_r; rewrite Hid;
    eexists; eexists; (split; [reflexivity|]); cbn; split; ring.
Qed.

Lemma exportImage_watermark_texts (c : Canvas) :
  truthy (WatermarkConfig.text (watermarkConfig props)) = true ->
  currentTransform (context c) = identity ->
  let size := exportImage_watermarkSize props canvas c in
  let text := watermarkDisplayText props in
  let a := exportImage_watermarkPosX props c
             (measureText (watermarkFont props size) text) in
  let py := exportImage_watermarkPosY props c size in
  exists tx ty,
    fillTexts (calls (exportImage_watermark measureText props canvas c))
    = (fillTexts (calls c) ++ [(text, fst a, (tx, ty))])%list
    /\ tx == snd a /\ ty == py.
Proof.
  intros Htext Hid size text a py. unfold exportImage_watermark. rewrite Htext.
  cbn zeta.
  cbn [font context withContext save set_font set_fillStyle set_globalAlpha].
  fold (watermarkDisplayText props).
  fold (watermarkFont props (exportImage_watermarkSize props canvas c)).
  fold size text.
  fold a.
  destruct a as [align px]; cbv beta iota.
  fold py.
  destruct (WatermarkConfig.italic _); destruct (_ && _);
    cbn; rewrite ?fillTexts_app; cbn; rewrite ?app_nil_r; rewrite Hid;
    eexists; eexists; (split; [reflexivity|]); cbn; split; ring.
Qed.

End ExportStages.

Section ExportPass.

Variable measureText : Font -> string -> Q.
Variable loadSvg : string -> option Image.
Variable offscreenContext : bool.
Variable numberToString : Q -> string.
Variable props : Props.
Variable canvas : Canvas.
Variable exportConfig : ExportConfig.t.

(** The export is its stages in order, on a new canvas of the export
    size. *)
Lemma exportImage_stages :
  let exportCanvas := exportCanvasOf exportConfig in
  exportedCanvas
    (exportImage measureText loadSvg offscreenContext numberToString props canvas
       exportConfig)
  = exportImage_watermark measureText props canvas
      (exportImage_title measureText props canvas
         (exportImage_icon loadSvg props canvas
            (exportImage_background offscreenContext numberToString props
               (whiteFilled exportCanvas)))).
Proof. reflexivity. Qed.

Lemma exportImage_rects :
  fillRects
    (calls (exportedCanvas
              (exportImage measureText loadSvg offscreenContext numberToString props
                 canvas exportConfig)))
  = fillRects
      (calls (exportImage_background offscreenContext numberToString props
                (whiteFilled (exportCanvasOf exportConfig)))).
Proof.
  rewrite exportImage_stages. cbn zeta.
  set (background := exportImage_background _ _ _ _).
  destruct (exportImage_watermark_context measureText props canvas
              (exportImage_title measureText props canvas
                 (exportImage_icon loadSvg props canvas background)))
    as (_ & _ & _ & -> & _).
  destruct (exportImage_title_context measureText props canvas
              (exportImage_icon loadSvg props canvas background))
    as (_ & _ & _ & -> & _).
  apply exportImage_icon_frame.
Qed.

Lemma exportImage_icon_draw (img : Image) :
  truthy (IconConfig.svg (iconConfig props)) = true ->
  loadSvg (IconConfig.svg (iconConfig props)) = Some img ->
  let exported :=
    exportedCanvas
      (exportImage measureText loadSvg offscreenContext numberToString props canvas
         exportConfig) in
  let exportCanvas := exportCanvasOf exportConfig in
  let background :=
    exportImage_background offscreenContext numberToString props
      (whiteFilled exportCanvas) in
  exists dw dh,
    imageDraws (calls exported)
    = (imageDraws (calls background)
       ++ [(imageElement img,
            (exportImage_iconPosX props canvas exportCanvas - dw / 2,
             exportImage_iconPosY props canvas exportCanvas - dh / 2),
            (dw, dh))])%list.
Proof.
  intros Hsvg Himg exported exportCanvas background.
  unfold exported. rewrite exportImage_stages. cbn zeta.
  fold exportCanvas. fold background.
  destruct (exportImage_background_size offscreenContext numberToString props
              (whiteFilled exportCanvas)) as (Bw & Bh & _).
  fold background in Bw, Bh. cbn [whiteFilled] in Bw, Bh.
  destruct (exportImage_icon_effect loadSvg props canvas img background Hsvg Himg)
    as (_ & _ & _ & _ & dw & dh & Iimg).
  set (icon := exportImage_icon loadSvg props canvas background) in *.
  destruct (exportImage_title_context measureText props canvas icon)
    as (_ & _ & _ & _ & Timg).
  set (title := exportImage_title measureText props canvas icon) in *.
  destruct (exportImage_watermark_context measureText props canvas title)
    as (_ & _ & _ & _ & Wimg).
  rewrite (exportImage_iconPosX_size props canvas exportCanvas background) in Iimg
    by exact Bw.
  rewrite (exportImage_iconPosY_size props canvas exportCanvas background) in Iimg
    by assumption.
  exists dw, dh. rewrite Wimg, Timg. exact Iimg.
Qed.

Lemma exportImage_text_draws :
  truthy (TitleConfig.text (titleConfig props)) = true ->
  truthy (WatermarkConfig.text (watermarkConfig props)) = true ->
  let exported :=
    exportedCanvas
      (exportImage measureText loadSvg offscreenContext numberToString props canvas
         exportConfig) in
  let exportCanvas := exportCanvasOf exportConfig in
  let titleSize := exportImage_titleSize props canvas exportCanvas in
  let titleAnchor :=
    exportImage_titlePosX props exportCanvas
      (measureText (titleFont props titleSize) (TitleConfig.text (titleConfig props))) in
  let watermarkSize := exportImage_watermarkSize props canvas exportCanvas in
  let watermarkAnchor :=
    exportImage_watermarkPosX props exportCanvas
      (measureText (watermarkFont props watermarkSize) (watermarkDisplayText props)) in
  exists tx ty wx wy,
    fillTexts (calls exported)
    = [(TitleConfig.text (titleConfig props), fst titleAnchor, (tx, ty));
       (watermarkDisplayText props, fst watermarkAnchor, (wx, wy))]
    /\ tx == snd titleAnchor
    /\ ty == exportImage_titlePosY props exportCanvas titleSize
    /\ wx == snd watermarkAnchor
    /\ wy == exportImage_watermarkPosY props exportCanvas watermarkSize.
Proof.
  intros Htitle Hmark exported exportCanvas titleSize titleAnchor
    watermarkSize watermarkAnchor.
  unfold exported. rewrite exportImage_stages. cbn zeta.
  fold exportCanvas.
  set (background :=
         exportImage_background offscreenContext numberToString props
           (whiteFilled exportCanvas)).
  destruct (exportImage_background_size offscreenContext numberToString props
              (whiteFilled exportCanvas)) as (Bw & Bh & Bt).
  fold background in Bw, Bh, Bt. cbn [whiteFilled] in Bw, Bh, Bt.
  destruct (exportImage_icon_frame loadSvg props canvas background)
    as (Iw & Ih & It & Itexts & _).
  set (icon := exportImage_icon loadSvg props canvas background) in *.
  destruct (exportImage_title_context measureText props canvas icon)
    as (Tw & Th & Tt & _ & _).
  set (title := exportImage_title measureText props canvas icon) in *.
  assert (Hicon : currentTransform (context icon) = identity)
    by (rewrite It, Bt; reflexivity).
  assert (Htitle' : currentTransform (context title) = identity)
    by (rewrite Tt; exact Hicon).
  destruct (exportImage_title_texts measureText props canvas icon Htitle Hicon)
    as (tx & ty & Ttexts & Etx & Ety).
  destruct (exportImage_watermark_texts measureText props canvas title Hmark Htitle')
    as (wx & wy & Wtexts & Ewx & Ewy).
  fold title in Ttexts.
  assert (Iw' : width icon = width exportCanvas) by (rewrite Iw; exact Bw).
  assert (Ih' : height icon = height exportCanvas) by (rewrite Ih; exact Bh).
  assert (Tw' : width title = width exportCanvas) by (rewrite Tw; exact Iw').
  assert (Th' : height title = height exportCanvas) by (rewrite Th; exact Ih').
  assert (St : exportImage_titleSize props canvas icon = titleSize)
    by (unfold titleSize, exportImage_titleSize; rewrite Iw'; reflexivity).
  assert (Sw : exportImage_watermarkSize props canvas title = watermarkSize)
    by (unfold watermarkSize, exportImage_watermarkSize; rewrite Tw'; reflexivity).
  rewrite St in Ttexts, Etx, Ety. rewrite Sw in Wtexts, Ewx, Ewy.
  rewrite (exportImage_titlePosX_size props exportCanvas icon) in Ttexts, Etx by exact Iw'.
  rewrite (exportImage_titlePosY_size props exportCanvas icon) in Ety by exact Ih'.
  rewrite (exportImage_watermarkPosX_size props exportCanvas title) in Wtexts, Ewx
    by exact Tw'.
  rewrite (exportImage_watermarkPosY_size props exportCanvas title) in Ewy by exact Th'.
  exists tx, ty, wx, wy.
  split.
  - rewrite Wtexts, Ttexts, Itexts.
    unfold background. rewrite exportImage_background_texts. reflexivity.
  - repeat split; assumption.
Qed.

End ExportPass.

(** ** The layout of the passes *)

(** The rules are statements up to [==]. *)
Lemma centredLayout_eq (p extent content r r' : Q) :
  r' == r -> centredLayout p extent content r -> centredLayout p extent content r'.
Proof.
  intros E (H1 & H2 & H3). unfold centredLayout, startRule, endRule, centreRule in *.
  repeat split; intros H; rewrite E; auto.
Qed.

Lemma textCentreX_eq (align : TextAlign) (tx tx' w : Q) :
  tx' == tx -> textCentreX align tx' w == textCentreX align tx w.
Proof. intros E. destruct align; cbn [textCentreX]; rewrite E; reflexivity. Qed.

(** A text drawn at the anchor and on the middle line the source
    computes is placed by the rules. *)
Lemma renderFrame_title_placed (c : Canvas) (w h p q tx ty : Q) :
  tx == snd (renderFrame_titlePosX c w p) ->
  ty == renderFrame_titlePosY c h q ->
  textPlaced p q (width c) (height c) w h (fst (renderFrame_titlePosX c w p)) tx ty.
Proof.
  intros Ex Ey.
  pose proof (renderFrame_titlePosX_anchor c w p) as (A1 & A2 & A3).
  pose proof (renderFrame_titlePosX_centre c w p) as ((B1 & B2 & _) & B3).
  pose proof (renderFrame_titlePosY_zones c h q) as ((C1 & C2 & _) & C3).
  split; [|split].
  - unfold anchoredAt. repeat split.
    + rewrite (A1 H). reflexivity.
    + rewrite Ex, (A1 H). reflexivity.
    + rewrite (A2 H). reflexivity.
    + rewrite Ex, (A2 H). reflexivity.
    + apply (A3 H).
    + rewrite Ex. apply (A3 H).
  - apply centredLayout_eq with (textCentreX (fst (renderFrame_titlePosX c w p))
                                   (snd (renderFrame_titlePosX c w p)) w).
    + apply textCentreX_eq. exact Ex.
    + repeat split; assumption.
  - apply centredLayout_eq with (renderFrame_titlePosY c h q); [exact Ey|].
    repeat split; assumption.
Qed.

Lemma renderFrame_watermark_placed (c : Canvas) (w h p q tx ty : Q) :
  tx == snd (renderFrame_watermarkPosX c w p) ->
  ty == renderFrame_watermarkPosY c h q ->
  textPlaced p q (width c) (height c) w h (fst (renderFrame_watermarkPosX c w p)) tx ty.
Proof.
  intros Ex Ey.
  pose proof (renderFrame_watermarkPosX_anchor c w p) as (A1 & A2 & A3).
  pose proof (renderFrame_watermarkPosX_centre c w p) as ((B1 & B2 & _) & B3).
  pose proof (renderFrame_watermarkPosY_zones c h q) as ((C1 & C2 & _) & C3).
  split; [|split].
  - unfold anchoredAt. repeat split.
    + rewrite (A1 H). reflexivity.
    + rewrite Ex, (A1 H). reflexivity.
    + rewrite (A2 H). reflexivity.
    + rewrite Ex, (A2 H). reflexivity.
    + apply (A3 H).
    + rewrite Ex. apply (A3 H).
  - apply centredLayout_eq with (textCentreX (fst (renderFrame_watermarkPosX c w p))
                                   (snd (renderFrame_watermarkPosX c w p)) w).
    + apply textCentreX_eq. exact Ex.
    + repeat split; assumption.
  - apply centredLayout_eq with (renderFrame_watermarkPosY c h q); [exact Ey|].
    repeat split; assumption.
Qed.

Lemma renderFrame_icon_placed (c : Canvas) (size p q : Q) :
  iconPlaced p q (width c) (height c) size
    (renderFrame_iconPosX c size p) (renderFrame_iconPosY c size q).
Proof.
  pose proof (renderFrame_iconPosX_zones c size p) as ((A1 & A2 & _) & A3).
  pose proof (renderFrame_iconPosY_zones c size q) as ((B1 & B2 & _) & B3).
  repeat split; assumption.
Qed.

Lemma iconImage_available (loadSvg : string -> option Image) (props : Props)
  (iconImageCache : option Image) (img : Image) :
  loadSvg (IconConfig.svg (iconConfig props)) = Some img ->
  iconImageCache = None \/ iconImageCache = Some img ->
  iconImage loadSvg props iconImageCache = Some img.
Proof. intros Hl [-> | ->]; [exact Hl | reflexivity]. Qed.



(** ** The interpolation in binary64 *)

(** At [p = 50] the interpolation can miss half the extent by one unit
    in the last place: an icon of size 33.3 on a canvas 1920 wide. *)
Lemma centre_misses_half_extent_in_binary64 :
  let px := Double.renderFrame_iconPosX 1920 (333 / 10) 50 in
  PrimFloat.eqb px 960 = false
  /\ PrimFloat.ltb px 960 = true
  /\ PrimFloat.ltb (PrimFloat.sub 960 px) (1 / 1000000000000) = true.
Proof. vm_compute. repeat split. Qed.

(** For a whole number of pixels it is exact. *)
Lemma centre_exact_on_whole_sizes_in_binary64 :
  forallb
    (fun size =>
       PrimFloat.eqb
         (Double.renderFrame_iconPosX 1920 (Double.ofZ (Z.of_nat size)) 50) 960)
    (seq 0 1921) = true.
Proof. vm_compute. reflexivity. Qed.



(** ** The colour background of the passes *)

Section ColourBackground.

Variable offscreenContext : bool.
Variable numberToString : Q -> string.
Variable props : Props.
Variables c1 c2 c3 c4 c5 c6 : ascii.
Variables v1 v2 v3 v4 v5 v6 : Z.
Hypothesis Htype : BackgroundConfig.type (backgroundConfig props) = COLOR.
Hypothesis Hcolor :
  BackgroundConfig.color (backgroundConfig props) = hexColor c1 c2 c3 c4 c5 c6.
Hypothesis H1 : hexDigit c1 = Some v1.
Hypothesis H2 : hexDigit c2 = Some v2.
Hypothesis H3 : hexDigit c3 = Some v3.
Hypothesis H4 : hexDigit c4 = Some v4.
Hypothesis H5 : hexDigit c5 = Some v5.
Hypothesis H6 : hexDigit c6 = Some v6.

(** The fill style the template builds from the three pairs of digits
    and the opacity. *)
Lemma rgbaTemplate_hex :
  rgbaTemplate numberToString
    (parseInt16 (slice (BackgroundConfig.color (backgroundConfig props)) 1 3))
    (parseInt16 (slice (BackgroundConfig.color (backgroundConfig props)) 3 5))
    (parseInt16 (slice (BackgroundConfig.color (backgroundConfig props)) 5 7))
    (BackgroundConfig.opacity (backgroundConfig props) / 100)
  = "rgba(" ++ intToString (16 * v1 + v2) ++ ", " ++ intToString (16 * v3 + v4)
    ++ ", " ++ intToString (16 * v5 + v6) ++ ", "
    ++ numberToString (BackgroundConfig.opacity (backgroundConfig props) / 100)
    ++ ")".
Proof.
  rewrite Hcolor. unfold hexColor, slice. cbn [substring Nat.sub].
  rewrite (parseInt16_pair _ _ _ _ H1 H2), (parseInt16_pair _ _ _ _ H3 H4),
    (parseInt16_pair _ _ _ _ H5 H6).
  reflexivity.
Qed.

Lemma renderFrame_background_color (c : Canvas) :
  fillRects (calls (renderFrame_background offscreenContext numberToString props
                      (whiteFilled c)))
  = (fillRects (calls c)
     ++ [(css "#ffffff", (0, 0), (width c, height c));
         (css ("rgba(" ++ intToString (16 * v1 + v2) ++ ", "
               ++ intToString (16 * v3 + v4) ++ ", " ++ intToString (16 * v5 + v6)
               ++ ", "
               ++ numberToString (BackgroundConfig.opacity (backgroundConfig props) / 100)
               ++ ")"),
          (0, 0), (width c, height c))])%list.
Proof.
  unfold renderFrame_background. rewrite Htype. unfold renderFrame_color.
  rewrite rgbaTemplate_hex.
  cbn. rewrite !fillRects_app. cbn. rewrite <- app_assoc. reflexivity.
Qed.

Lemma exportImage_background_color (c : Canvas) :
  fillRects (calls (exportImage_background offscreenContext numberToString props
                      (whiteFilled c)))
  = (fillRects (calls c)
     ++ [(css "#ffffff", (0, 0), (width c, height c));
         (css ("rgba(" ++ intToString (16 * v1 + v2) ++ ", "
               ++ intToString (16 * v3 + v4) ++ ", " ++ intToString (16 * v5 + v6)
               ++ ", "
               ++ numberToString (BackgroundConfig.opacity (backgroundConfig props) / 100)
               ++ ")"),
          (0, 0), (width c, height c))])%list.
Proof.
  unfold exportImage_background. rewrite Htype. unfold exportImage_color.
  rewrite rgbaTemplate_hex.
  cbn. rewrite !fillRects_app. cbn. rewrite <- app_assoc. reflexivity.
Qed.

End ColourBackground.




(** ** The spring in binary64 *)

Lemma double_ticks_add (n m : nat) (dt : float) (state : Double.AnimationState) :
  Double.ticks (n + m) dt state = Double.ticks m dt (Double.ticks n dt state).
Proof.
  revert state. induction n as [|n IH]; intros state; cbn [Double.ticks Nat.add].
  - reflexivity.
  - apply IH.
Qed.

Lemma double_ticks_fixed (n : nat) (dt : float) (state : Double.AnimationState) :
  Double.tick dt state = state -> Double.ticks n dt state = state.
Proof.
  intros H. induction n as [|n IH]; cbn [Double.ticks]; [reflexivity|].
  rewrite H. exact IH.
Qed.

(** [settleTime] finds a tick that reports settled. *)
Lemma double_settleTime_sound (fuel : nat) (dt : float) :
  forall (state : Double.AnimationState) (n : nat),
    Double.settleTime fuel dt state = Some n ->
    (n < fuel)%nat
    /\ snd (Double.updateSpringAnimation (Double.ticks n dt state) dt) = false.
Proof.
  induction fuel as [|fuel IH]; intros state n H; cbn [Double.settleTime] in H.
  - discriminate.
  - destruct (snd (Double.updateSpringAnimation state dt)) eqn:A.
    + destruct (Double.settleTime fuel dt (Double.tick dt state)) as [k|] eqn:K;
        cbn [option_map] in H; [|discriminate].
      injection H as <-. destruct (IH _ _ K) as (Hk & Hs).
      split; [lia|]. cbn [Double.ticks]. exact Hs.
    + injection H as <-. split; [lia|]. cbn [Double.ticks]. exact A.
Qed.

(** And when it finds none, every one of the first [fuel] ticks
    reports still active. *)
Lemma double_settleTime_none (fuel : nat) (dt : float) :
  forall (state : Double.AnimationState),
    Double.settleTime fuel dt state = None ->
    forall n, (n < fuel)%nat ->
      snd (Double.updateSpringAnimation (Double.ticks n dt state) dt) = true.
Proof.
  induction fuel as [|fuel IH]; intros state H n Hn; [lia|].
  cbn [Double.settleTime] in H.
  destruct (snd (Double.updateSpringAnimation state dt)) eqn:A; [|discriminate].
  destruct (Double.settleTime fuel dt (Double.tick dt state)) as [k|] eqn:K;
    cbn [option_map] in H; [discriminate|].
  destruct n as [|n]; cbn [Double.ticks]; [exact A|].
  apply (IH _ K). lia.
Qed.

Lemma double_grid (bound fuel : nat) (dt : float) (from to : Z) :
  Double.settlesOnGrid bound fuel dt = true ->
  (0 <= from <= Z.of_nat bound)%Z -> (0 <= to <= Z.of_nat bound)%Z ->
  exists n : nat,
    (n < fuel)%nat
    /\ snd (Double.updateSpringAnimation
              (Double.ticks n dt (Double.fromTo from to)) dt) = false.
Proof.
  unfold Double.settlesOnGrid. intros H Hf Ht.
  rewrite forallb_forall in H.
  specialize (H (Z.to_nat from)).
  rewrite forallb_forall in H.
  assert (Hin : forall z, (0 <= z <= Z.of_nat bound)%Z ->
                          In (Z.to_nat z) (seq 0 (S bound)))
    by (intros z Hz; apply in_seq; lia).
  specialize (H (Hin from Hf) (Z.to_nat to) (Hin to Ht)).
  rewrite !Z2Nat.id in H by lia.
  destruct (Double.settleTime fuel dt (Double.fromTo from to)) as [n|] eqn:E;
    [|discriminate].
  exists n. apply (double_settleTime_sound fuel dt _ _ E).
Qed.

(** The grid of the integers from 0 to 500, at sixty ticks a second. *)
Lemma double_grid_500 : Double.settlesOnGrid 500 200 (1 / 60) = true.
Proof. vm_compute. reflexivity. Qed.




(** ** More on the animation loop *)

Lemma update_reports_active (state : AnimationState) (dt : Q) :
  snd (updateSpringAnimation state dt) = negb (atRest state).
Proof.
  destruct (atRest state) eqn:R.
  - rewrite (update_at_rest _ _ R). reflexivity.
  - rewrite (update_active _ _ R). reflexivity.
Qed.

Lemma tick_settles (dt : Q) (state : AnimationState) :
  atRest state = true -> tick dt state = settle state.
Proof. apply tick_at_rest. Qed.

(** X1.  A run of the animation loop reports no active state exactly
    when every state of the table passes the test of the early
    return; the table it leaves is then settled: every value at its
    target, every velocity zero. *)
Theorem loop_stops_iff_all_at_rest (currentTime lastTime : Q) (a : AnimationStates) :
  (snd (animationLoop currentTime lastTime a) = false <-> allAtRest a = true)
  /\ (snd (animationLoop currentTime lastTime a) = false ->
      snd (fst (animationLoop currentTime lastTime a)) = forEachState settle a).
Proof.
  unfold animationLoop. cbn [fst snd].
  set (dt := deltaTime currentTime lastTime).
  assert (E : existsb (fun s => snd (updateSpringAnimation s dt)) (stateList a)
              = negb (allAtRest a)).
  { unfold allAtRest. induction (stateList a) as [|s l IH]; [reflexivity|].
    cbn [existsb forallb]. rewrite IH, update_reports_active, negb_andb. reflexivity. }
  rewrite E. split.
  - rewrite negb_false_iff. reflexivity.
  - rewrite negb_false_iff. unfold allAtRest, stateList. cbn [forallb].
    rewrite !andb_true_iff.
    intros (H1 & H2 & H3 & H4 & H5 & H6 & H7 & H8 & H9 & H10 & H11 & _).
    unfold forEachState.
    rewrite !tick_settles by assumption. reflexivity.
Qed.

Lemma loop_stops_iff_all_at_rest_witness :
  let a := updateAnimationTargets (sampleProps 48 50) animationStates0 in
  allAtRest a = true
  /\ snd (animationLoop 1016 1000 a) = false
  /\ snd (fst (animationLoop 1016 1000 a)) = forEachState settle a.
Proof.
  cbn zeta.
  destruct (loop_stops_iff_all_at_rest 1016 1000
              (updateAnimationTargets (sampleProps 48 50) animationStates0)) as (Hi & Hs).
  assert (R : allAtRest (updateAnimationTargets (sampleProps 48 50) animationStates0) = true)
    by (vm_compute; reflexivity).
  split; [exact R|]. split; [apply Hi; exact R|]. apply Hs, Hi. exact R.
Defined.

(** ** More on [updateAnimationTargets] *)

(** X2.  [updateAnimationTargets] is idempotent: a second call with
    the same configuration changes nothing, whether the first one
    snapped or not. *)
Theorem update_targets_idempotent (props : Props) (a : AnimationStates) :
  updateAnimationTargets props (updateAnimationTargets props a)
  = updateAnimationTargets props a.
Proof.
  destruct (Qeq_bool (value (titleSize a)) 0) eqn:E.
  - assert (S : updateAnimationTargets props a
                = forEachState snapToTarget (assignTargets props a))
      by (unfold updateAnimationTargets; cbn [assignTargets titleSize setTarget value];
          rewrite E; reflexivity).
    rewrite S. unfold updateAnimationTargets.
    cbn [assignTargets forEachState titleSize titleX titleY watermarkSize watermarkX
         watermarkY iconSize iconX iconY watermarkOpacity backgroundBlur
         setTarget snapToTarget value target velocity].
    destruct (Qeq_bool (TitleConfig.size (titleConfig props)) 0); reflexivity.
  - assert (S : updateAnimationTargets props a = assignTargets props a)
      by (unfold updateAnimationTargets; cbn [assignTargets titleSize setTarget value];
          rewrite E; reflexivity).
    rewrite S. unfold updateAnimationTargets.
    cbn [assignTargets forEachState titleSize titleX titleY watermarkSize watermarkX
         watermarkY iconSize iconX iconY watermarkOpacity backgroundBlur
         setTarget snapToTarget value target velocity].
    rewrite E. reflexivity.
Qed.



(** ** The white ground of the passes *)

Lemma renderFrame_background_rects (offscreenContext : bool)
  (numberToString : Q -> string) (props : Props) (c : Canvas) :
  exists rest,
    fillRects (calls (renderFrame_background offscreenContext numberToString props c))
    = (fillRects (calls c) ++ rest)%list.
Proof.
  unfold renderFrame_background, renderFrame_color, renderFrame_gradient,
    renderFrame_image.
  destruct (BackgroundConfig.type _).
  - eexists. cbn. rewrite fillRects_app. cbn. reflexivity.
  - eexists. cbn. rewrite fillRects_app. cbn. reflexivity.
  - destruct (BackgroundConfig.imageObj _);
      [|exists []; rewrite app_nil_r; reflexivity].
    exists []. rewrite app_nil_r. decide_tests; observe.
Qed.

Lemma exportImage_background_rects (offscreenContext : bool)
  (numberToString : Q -> string) (props : Props) (c : Canvas) :
  exists rest,
    fillRects (calls (exportImage_background offscreenContext numberToString props c))
    = (fillRects (calls c) ++ rest)%list.
Proof.
  unfold exportImage_background, exportImage_color, exportImage_gradient,
    exportImage_image.
  destruct (BackgroundConfig.type _).
  - eexists. cbn. rewrite fillRects_app. cbn. reflexivity.
  - eexists. cbn. rewrite fillRects_app. cbn. reflexivity.
  - destruct (BackgroundConfig.imageObj _);
      [|exists []; rewrite app_nil_r; reflexivity].
    exists []. rewrite app_nil_r. decide_tests; observe.
Qed.

